(** * Padding removal for logo images: a shallow embedding

    This development embeds the two padding-removal scripts of the
    repository,

    - [static/Logo final/imagepadding/image_processor.py]
      (class [ImagePaddingRemover], the variance-based detector), and
    - [static/assets/Logo final/imagepadding/imagedit.py]
      (class [ImageProcessor] and [main], the alpha-based detector),

    and proves the properties stated about them.

    Modelling conventions.

    - A Python computation that may raise is a value of [result]; code
      that also logs or touches files is a function from [world] to a
      [result] and a new [world] (effects survive an exception, as in
      Python).
    - numpy's float64 arithmetic is idealised as exact rational arithmetic
      over [Q]; decimal literals ([0.99], [0.1], [0.05]) denote the
      rationals they spell.  The index computations ([argmax], [where],
      slicing, clamping) are integer computations and are modelled exactly.
    - A decoded picture is a grid (list of rows) of pixels; its height is
      the number of rows and its width the length of the first row, as
      numpy's [shape] reports them for the rectangular arrays PIL builds. *)

From Stdlib Require Import ZArith QArith Qround Lia Ascii.
From stdpp Require Import base option list strings pretty gmap.

Local Open Scope Z_scope.

(** ** Python results and the effect monad *)

Module Py.

(** The exceptions the two scripts and the library calls they make can
    raise; each carries the text [str(e)] yields. *)
Inductive exn : Type :=
| ValueError (msg : string)
| IndexError (msg : string)
| FileNotFoundError (msg : string)
| UnidentifiedImageError (msg : string).

Definition str (e : exn) : string :=
  match e with
  | ValueError m | IndexError m | FileNotFoundError m
  | UnidentifiedImageError m => m
  end.

Inductive result (A : Type) : Type :=
| Ok (a : A)
| Raise (e : exn).
Arguments Ok {A} a.
Arguments Raise {A} e.

Definition rbind {A B} (r : result A) (k : A -> result B) : result B :=
  match r with
  | Ok a => k a
  | Raise e => Raise e
  end.

Definition is_ok {A} (r : result A) : bool :=
  match r with Ok _ => true | Raise _ => false end.

End Py.
Export Py.

Notation "x <- r ;; k" := (rbind r (fun x => k))
  (at level 100, r at next level, right associativity,
   format "'[v' x  <-  r  ;;  '/' k ']'").

(** ** The numpy operations the scripts use *)

Module np.

Local Open Scope Q_scope.

(** [a > b] on floats, as a boolean. *)
Definition Qgtb (a b : Q) : bool := negb (Qle_bool a b).

Definition Qmaxb (a b : Q) : Q := if Qle_bool a b then b else a.

Definition sum (l : list Q) : Q := foldr Qplus 0 l.

(** [np.mean] of a one-dimensional array.  Of an empty array numpy
    gives NaN (with a warning) where this gives [0/0 = 0]; the scripts
    only take the mean or variance of an empty slice on an array without
    columns, and then raise in [np.max] before any such value is
    compared. *)
Definition mean (l : list Q) : Q :=
  sum l / inject_Z (Z.of_nat (length l)).

(** [np.var]: the mean of the squared deviations from the mean. *)
Definition var (l : list Q) : Q :=
  let m := mean l in
  mean ((fun x => (x - m) * (x - m)) <$> l).

(** [np.max] of a one-dimensional array; the reduction of an empty
    array raises. *)
Definition max (l : list Q) : result Q :=
  match l with
  | [] => Raise (ValueError
      "zero-size array to reduction operation maximum which has no identity")
  | x :: l' => Ok (foldl Qmaxb x l')
  end.

(** Index of the first [true], if any. *)
Fixpoint first_true (l : list bool) : option nat :=
  match l with
  | [] => None
  | b :: l' => if b then Some O else S <$> first_true l'
  end.

(** [np.argmax] of a boolean array: the first index holding the largest
    value, so the first [True], and [0] when every entry is [False]. *)
Definition argmax (l : list bool) : result Z :=
  match l with
  | [] => Raise (ValueError "attempt to get argmax of an empty sequence")
  | _ => Ok (Z.of_nat (default O (first_true l)))
  end.

(** [np.where(l)[0]]: the indices of the [True] entries, ascending. *)
Fixpoint where_from (i : Z) (l : list bool) : list Z :=
  match l with
  | [] => []
  | b :: l' =>
      if b then i :: where_from (i + 1)%Z l' else where_from (i + 1)%Z l'
  end.
Definition where_ (l : list bool) : list Z := where_from 0%Z l.

(** [a[[0, -1]]]: first and last element; indexing an empty array
    raises. *)
Definition first_last (a : list Z) : result (Z * Z) :=
  match a with
  | [] => Raise (IndexError
      "index 0 is out of bounds for axis 0 with size 0")
  | x :: a' => Ok (x, List.last a' x)
  end.

(** Two- and three-dimensional arrays of integer samples, as
    [np.array(img)] builds them. *)
Inductive ndarray : Type :=
| Arr2 (a : list (list Z))
| Arr3 (a : list (list (list Z))).

(** A function applied to every cell of a grid. *)
Definition map2 {A B} (f : A -> B) (g : list (list A)) : list (list B) :=
  (fun row : list A => f <$> row) <$> g.

Definition height {A} (g : list (list A)) : nat := length g.
Definition width {A} (g : list (list A)) : nat := length (hd [] g).

(** [img_array.shape[:2]]. *)
Definition shape2 (a : ndarray) : Z * Z :=
  match a with
  | Arr2 g => (Z.of_nat (height g), Z.of_nat (width g))
  | Arr3 g => (Z.of_nat (height g), Z.of_nat (width g))
  end.

(** The columns of a grid (the slices along axis 0). *)
Definition columns (g : list (list Q)) : list (list Q) :=
  (fun j => (fun row => default 0 (row !! j)) <$> g) <$> seq 0 (width g).

(** [np.var(g, axis=1)] and [np.var(g, axis=0)]. *)
Definition var_axis1 (g : list (list Q)) : list Q := var <$> g.
Definition var_axis0 (g : list (list Q)) : list Q := var <$> columns g.

(** [np.any(mask, axis=1)], [np.any(mask, axis=0)] and [mask.any()]. *)
Definition any_axis1 (m : list (list bool)) : list bool :=
  existsb id <$> m.
Definition any_axis0 (m : list (list bool)) : list bool :=
  (fun j => existsb (fun row => default false (row !! j)) m)
    <$> seq 0 (width m).
Definition any (m : list (list bool)) : bool :=
  existsb (existsb id) m.

(** Python's [int(x)] on a float: truncation towards zero. *)
Definition int (x : Q) : Z := Z.quot (Qnum x) (Zpos (Qden x)).

End np.

(** ** Files, the log and effectful code *)

Module PIL.

(** A decoded picture, by PIL mode; a pixel is the tuple of its bands. *)
Inductive image : Type :=
| ImgL (px : list (list Z))
| ImgLA (px : list (list (Z * Z)))
| ImgRGB (px : list (list (Z * Z * Z)))
| ImgRGBA (px : list (list (Z * Z * Z * Z))).

(** Number of bands of a picture's mode. *)
Definition bands (img : image) : nat :=
  match img with
  | ImgL _ => 1 | ImgLA _ => 2 | ImgRGB _ => 3 | ImgRGBA _ => 4
  end.

(** [img.size], as (width, height). *)
Definition size (img : image) : nat * nat :=
  match img with
  | ImgL g => (np.width g, np.height g)
  | ImgLA g => (np.width g, np.height g)
  | ImgRGB g => (np.width g, np.height g)
  | ImgRGBA g => (np.width g, np.height g)
  end.

(** [img.convert('RGBA')]: grey levels are replicated over the colour
    bands, and a mode without alpha becomes fully opaque. *)
Definition convert_RGBA (img : image) : list (list (Z * Z * Z * Z)) :=
  match img with
  | ImgL g => np.map2 (fun l => (l, l, l, 255)) g
  | ImgLA g => np.map2 (fun '(l, a) => (l, l, l, a)) g
  | ImgRGB g => np.map2 (fun '(r, g, b) => (r, g, b, 255)) g
  | ImgRGBA g => g
  end.

(** [np.array(img)]: a mode-L picture gives a two-dimensional array, the
    others a third axis of bands. *)
Definition np_array (img : image) : np.ndarray :=
  match img with
  | ImgL g => np.Arr2 g
  | ImgLA g => np.Arr3 (np.map2 (fun '(l, a) => [l; a]) g)
  | ImgRGB g => np.Arr3 (np.map2 (fun '(r, g, b) => [r; g; b]) g)
  | ImgRGBA g =>
      np.Arr3 (np.map2 (fun '(r, g, b, a) => [r; g; b; a]) g)
  end.

(** The rectangle [x0 <= x < x1], [upper <= y < lower] of a grid, for a
    box [(x0, upper, x1, lower)] (PIL's left, upper, right, lower).
    The scripts only pass boxes that lie inside the picture, where PIL
    copies exactly this region. *)
Definition crop_grid {A} (box : Z * Z * Z * Z) (g : list (list A))
  : list (list A) :=
  let '(x0, upper, x1, lower) := box in
  (fun row => take (Z.to_nat (x1 - x0)) (drop (Z.to_nat x0) row))
    <$> take (Z.to_nat (lower - upper)) (drop (Z.to_nat upper) g).

(** [img.crop((left, upper, right, lower))]. *)
Definition crop (img : image) (box : Z * Z * Z * Z) : image :=
  match img with
  | ImgL g => ImgL (crop_grid box g)
  | ImgLA g => ImgLA (crop_grid box g)
  | ImgRGB g => ImgRGB (crop_grid box g)
  | ImgRGBA g => ImgRGBA (crop_grid box g)
  end.

End PIL.

Module Sys.

(** What a path holds: a picture PIL can decode, or other bytes. *)
Inductive file : Type :=
| Picture (img : PIL.image)
| Garbage.

Inductive level : Type := INFO | WARNING | ERROR.

(** The part of the world the scripts act on: the files by path and the
    records handed to the logger, oldest first. *)
Record world : Type := World {
  files : gmap string file;
  log : list (level * string)
}.

(** An effectful computation: it may change the world and then either
    returns or raises. *)
Definition M (A : Type) : Type := world -> result A * world.

Definition ret {A} (a : A) : M A := fun w => (Ok a, w).
Definition raise {A} (e : exn) : M A := fun w => (Raise e, w).
Definition bind {A B} (m : M A) (k : A -> M B) : M B :=
  fun w =>
    match m w with
    | (Ok a, w') => k a w'
    | (Raise e, w') => (Raise e, w')
    end.
Definition lift {A} (r : result A) : M A := fun w => (r, w).

(** [try: m except Exception as e: h e]. *)
Definition try_except {A} (m : M A) (h : exn -> M A) : M A :=
  fun w =>
    match m w with
    | (Ok a, w') => (Ok a, w')
    | (Raise e, w') => h e w'
    end.

Definition logger (lvl : level) (msg : string) : M unit :=
  fun w => (Ok tt, World (files w) (log w ++ [(lvl, msg)])).

(** [os.path.exists]. *)
Definition exists_ (path : string) : M bool :=
  fun w => (Ok (bool_decide (is_Some (files w !! path))), w).

(** [Image.open]. *)
Definition Image_open (path : string) : M PIL.image :=
  fun w =>
    match files w !! path with
    | None => (Raise (FileNotFoundError
        ("[Errno 2] No such file or directory: '" +:+ path +:+ "'")), w)
    | Some Garbage => (Raise (UnidentifiedImageError
        ("cannot identify image file '" +:+ path +:+ "'")), w)
    | Some (Picture img) => (Ok img, w)
    end.

(** [img.save(path)]: the path now holds the picture.  Failures of the
    storage itself (no such directory, no space) are outside the model. *)
Definition save (img : PIL.image) (path : string) : M unit :=
  fun w => (Ok tt, World (<[path := Picture img]> (files w)) (log w)).

End Sys.
Export Sys.

Notation "x <~ m ;; k" := (Sys.bind m (fun x => k))
  (at level 100, m at next level, right associativity,
   format "'[v' x  <~  m  ;;  '/' k ']'").
Notation "m ;;; k" := (Sys.bind m (fun _ => k))
  (at level 100, right associativity,
   format "'[v' m  ;;;  '/' k ']'").

(** ** [image_processor.py]: the variance-based padding remover *)

Module image_processor.

Local Open Scope Q_scope.

(** The fields [__init__] stores. *)
Record ImagePaddingRemover : Type := {
  threshold : Q;
  min_content_ratio : Q
}.

(** [ImagePaddingRemover()] with the default arguments. *)
Definition with_defaults : ImagePaddingRemover :=
  {| threshold := 0.99; min_content_ratio := 0.1 |}.

(** Lines 39-43: the grey-level array, the mean over the band axis for
    a three-dimensional array. *)
Definition gray_array (img_array : np.ndarray) : list (list Q) :=
  match img_array with
  | np.Arr3 a => np.map2 (fun px => np.mean (inject_Z <$> px)) a
  | np.Arr2 a => np.map2 inject_Z a
  end.

(** Lines 46-47. *)
Definition row_vars (img_array : np.ndarray) : list Q :=
  np.var_axis1 (gray_array img_array).
Definition col_vars (img_array : np.ndarray) : list Q :=
  np.var_axis0 (gray_array img_array).

(** Lines 50-51: [np.max(vars) * (1 - self.threshold)]. *)
Definition var_threshold (self : ImagePaddingRemover) (vars : list Q)
  : result Q :=
  m <- np.max vars ;;
  Ok (m * (1 - threshold self)).

(** [vars > thr], elementwise: the entries classified as content. *)
Definition content (vars : list Q) (thr : Q) : list bool :=
  (fun v => np.Qgtb v thr) <$> vars.

(** Lines 29-58. The result is [(top, bottom, left, right)]. *)
Definition _compute_edge_boundaries (self : ImagePaddingRemover)
    (img_array : np.ndarray) : result (Z * Z * Z * Z) :=
  let row_vars := row_vars img_array in
  let col_vars := col_vars img_array in
  row_threshold <- var_threshold self row_vars ;;
  col_threshold <- var_threshold self col_vars ;;
  top <- np.argmax (content row_vars row_threshold) ;;
  from_bottom <- np.argmax (content (reverse row_vars) row_threshold) ;;
  let bottom := (Z.of_nat (length row_vars) - from_bottom)%Z in
  lft <- np.argmax (content col_vars col_threshold) ;;
  from_right <- np.argmax (content (reverse col_vars) col_threshold) ;;
  let rgt := (Z.of_nat (length col_vars) - from_right)%Z in
  Ok (top, bottom, lft, rgt).

(** Lines 82-86: the test that the detected box is too small. *)
Definition too_aggressive (self : ImagePaddingRemover)
    (height width : Z) (box : Z * Z * Z * Z) : bool :=
  let '(top, bottom, lft, rgt) := box in
  let content_height := (bottom - top)%Z in
  let content_width := (rgt - lft)%Z in
  np.Qgtb (min_content_ratio self)
          (inject_Z content_height / inject_Z height)
  || np.Qgtb (min_content_ratio self)
             (inject_Z content_width / inject_Z width).

(** Line 89. *)
Definition margin (height width : Z) : Z :=
  np.int (inject_Z (Z.min height width) * 0.05).

(** Lines 89-93: the box grown by the margin and clamped to the picture. *)
Definition preserve (height width : Z) (box : Z * Z * Z * Z)
  : Z * Z * Z * Z :=
  let '(top, bottom, lft, rgt) := box in
  let margin := margin height width in
  (Z.max 0 (top - margin), Z.min height (bottom + margin),
   Z.max 0 (lft - margin), Z.min width (rgt + margin))%Z.

(** Lines 81-93. *)
Definition validate (self : ImagePaddingRemover) (height width : Z)
    (box : Z * Z * Z * Z) : Z * Z * Z * Z :=
  if too_aggressive self height width box
  then preserve height width box
  else box.

(** Lines 78-93 on a decoded array: the box that line 96 crops to. *)
Definition crop_boundaries (self : ImagePaddingRemover)
    (img_array : np.ndarray) : result (Z * Z * Z * Z) :=
  box <- _compute_edge_boundaries self img_array ;;
  let '(height, width) := np.shape2 img_array in
  Ok (validate self height width box).

(** Lines 74-96 on a decoded picture: detect, validate and crop. *)
Definition cropped_img (self : ImagePaddingRemover) (img : PIL.image)
  : result PIL.image :=
  box <- crop_boundaries self (PIL.np_array img) ;;
  let '(top, bottom, lft, rgt) := box in
  Ok (PIL.crop img (lft, top, rgt, bottom)).

(** Lines 60-102. *)
Definition remove_padding (self : ImagePaddingRemover)
    (image_path : string) (output_path : option string) : M PIL.image :=
  logger INFO ("Processing image: " +:+ image_path) ;;;
  img <~ Image_open image_path ;;
  let img_array := PIL.np_array img in
  box <~ lift (_compute_edge_boundaries self img_array) ;;
  let '(height, width) := np.shape2 img_array in
  (if too_aggressive self height width box
   then logger WARNING
          "Content boundaries may be too aggressive, adjusting..."
   else ret tt) ;;;
  let '(top, bottom, lft, rgt) := validate self height width box in
  let cropped_img := PIL.crop img (lft, top, rgt, bottom) in
  match output_path with
  | Some p =>
      if bool_decide (p = "") then ret cropped_img
      else
        save cropped_img p ;;;
        logger INFO ("Saved processed image to: " +:+ p) ;;;
        ret cropped_img
  | None => ret cropped_img
  end.

(** Lines 104-114: the loop of [process_batch], from index [idx]. *)
Fixpoint process_batch_from (self : ImagePaddingRemover) (idx : nat)
    (image_paths : list string) (output_dir : string) : M unit :=
  match image_paths with
  | [] => ret tt
  | path :: rest =>
      let output_path :=
        output_dir +:+ "/processed_" +:+ pretty idx +:+ ".png" in
      remove_padding self path (Some output_path) ;;;
      process_batch_from self (S idx) rest output_dir
  end.

Definition process_batch (self : ImagePaddingRemover)
    (image_paths : list string) (output_dir : string) : M unit :=
  process_batch_from self 0 image_paths output_dir.

End image_processor.

(** ** [imagedit.py]: the alpha-based padding remover *)

Module imagedit.

(** [os.path.join] of two components (POSIX). *)
Definition os_path_join (a b : string) : string :=
  match b with
  | String "/"%char _ => b
  | _ =>
      match String.rev a with
      | EmptyString => b
      | String "/"%char _ => a +:+ b
      | _ => a +:+ "/" +:+ b
      end
  end.

(** [os.path.basename]: what follows the last slash. *)
Fixpoint basename_from (acc s : string) : string :=
  match s with
  | EmptyString => acc
  | String "/"%char s' => basename_from "" s'
  | String c s' => basename_from (acc +:+ String c "") s'
  end.
Definition os_path_basename (p : string) : string := basename_from "" p.

(** Line 11. *)
Definition base_path : string :=
  "/Users/infiniteintelligence/Indian Genius/benmak/31 leveldisplay/FInal website/assets/Logo final".

(** Line 35: [img_data[:,:,3] > 0]. *)
Definition mask (img_data : list (list (Z * Z * Z * Z)))
  : list (list bool) :=
  np.map2 (fun '(_, _, _, a) => 0 <? a) img_data.

(** Lines 39-45: the box handed to [crop], (left, upper, right, lower). *)
Definition crop_box (mask : list (list bool)) : result (Z * Z * Z * Z) :=
  let rows := np.any_axis1 mask in
  let cols := np.any_axis0 mask in
  ys <- np.first_last (np.where_ rows) ;;
  xs <- np.first_last (np.where_ cols) ;;
  let '(ymin, ymax) := ys in
  let '(xmin, xmax) := xs in
  Ok (xmin, ymin, xmax + 1, ymax + 1).

(** Lines 27-47 on a decoded picture. *)
Definition cropped (img : PIL.image) : result PIL.image :=
  let img :=
    match img with
    | PIL.ImgRGBA _ => img
    | _ => PIL.ImgRGBA (PIL.convert_RGBA img)
    end in
  let img_data := PIL.convert_RGBA img in
  let mask := mask img_data in
  if np.any mask then
    box <- crop_box mask ;;
    Ok (PIL.crop img box)
  else Ok img.

(** Lines 13-65. *)
Definition remove_padding (input_path : string)
    (output_filename : option string) : M PIL.image :=
  try_except
    (logger INFO ("Processing image: " +:+ input_path) ;;;
     present <~ exists_ input_path ;;
     (if negb present
      then raise (FileNotFoundError
                    ("Input file not found: " +:+ input_path))
      else ret tt) ;;;
     img <~ Image_open input_path ;;
     cropped <~ lift (cropped img) ;;
     let output_filename :=
       match output_filename with
       | None => "processed_" +:+ os_path_basename input_path
       | Some n => n
       end in
     let output_path := os_path_join base_path output_filename in
     save cropped output_path ;;;
     logger INFO ("Saved processed image to: " +:+ output_path) ;;;
     ret cropped)
    (fun e =>
       logger ERROR ("Error processing image: " +:+ str e) ;;;
       raise e).

(** Lines 69-87. *)
Definition image_files : list string :=
  [ "download.png";
    "Logo_of_United_Kingdom_Department_of_Health_and_Social_Care.svg.png";
    "UK-Parliament-Logo-1536x864.png";
    "png-clipart-brand-logo-university-of-the-arts-london-product-design-telford-college-of-arts-and-technology-text-london-thumbnail.png";
    "OBE-GOLD-Effect-logo.png";
    "Untitled (Sticker (76x37mm)).png";
    "nspsc.png";
    "lliverpool collehe .png";
    "justice .png";
    "1.png"; "11.png"; "12.png"; "13.png"; "14.png";
    "city westminster.png";
    "house commons.png";
    "lpool city counil .png" ].

(** Lines 94-100: the loop of [main] over a list of file names. *)
Fixpoint process_each (image_files : list string) : M unit :=
  match image_files with
  | [] => ret tt
  | filename :: rest =>
      let input_path := os_path_join base_path filename in
      present <~ exists_ input_path ;;
      (if present then
         remove_padding input_path (Some ("processed_" +:+ filename)) ;;;
         logger INFO ("Successfully processed " +:+ filename)
       else logger WARNING ("File not found: " +:+ filename)) ;;;
      process_each rest
  end.

(** Lines 89-103, for a given list of file names. *)
Definition main_on (image_files : list string) : M unit :=
  try_except
    (process_each image_files)
    (fun e => logger ERROR ("Main execution error: " +:+ str e)).

(** Lines 67-103. *)
Definition main : M unit := main_on image_files.

End imagedit.

(** ** Auxiliary definitions for the statements and proofs *)

Module Aux.

(** The box in terms of the two content masks. *)
Definition box_of_masks (rows cols : list bool) : Z * Z * Z * Z :=
  (Z.of_nat (default O (np.first_true rows)),
   Z.of_nat (length rows)
     - Z.of_nat (default O (np.first_true (reverse rows))),
   Z.of_nat (default O (np.first_true cols)),
   Z.of_nat (length cols)
     - Z.of_nat (default O (np.first_true (reverse cols)))).


(** A grid is rectangular when all its rows have the width of the
    first one, as every array numpy builds from a picture is. *)
Definition rectangular {A} (g : list (list A)) : Prop :=
  Forall (fun row => length row = np.width g) g.

Definition rectangular_image (img : PIL.image) : Prop :=
  match img with
  | PIL.ImgL g => rectangular g
  | PIL.ImgLA g => rectangular g
  | PIL.ImgRGB g => rectangular g
  | PIL.ImgRGBA g => rectangular g
  end.

(** The cell of a grid at row [r] and column [c], if there is one. *)
Definition at2 {A} (g : list (list A)) (r c : nat) : option A :=
  g !! r ≫= fun row => row !! c.

(** The first and the last row and the first and the last column of
    the array are content for the variance detector: their variance is
    above the array's own threshold. *)
Definition borders_are_content (self : image_processor.ImagePaddingRemover)
    (a : np.ndarray) : Prop :=
  exists row_threshold col_threshold,
    image_processor.var_threshold self (image_processor.row_vars a)
      = Ok row_threshold /\
    image_processor.var_threshold self (image_processor.col_vars a)
      = Ok col_threshold /\
    let rows :=
      image_processor.content (image_processor.row_vars a) row_threshold in
    let cols :=
      image_processor.content (image_processor.col_vars a) col_threshold in
    head rows = Some true /\ last rows = Some true /\
    head cols = Some true /\ last cols = Some true.

(** Where [main] reads the file named [filename] and where it writes
    the processed picture. *)
Definition input_path (filename : string) : string :=
  imagedit.os_path_join imagedit.base_path filename.
Definition output_path (filename : string) : string :=
  imagedit.os_path_join imagedit.base_path ("processed_" +:+ filename).



(** The alpha band of an RGBA pixel. *)
Definition alpha (p : Z * Z * Z * Z) : Z := p.2.

End Aux.
Export Aux.

(** ** Concrete pictures used as examples *)

Module Examples.

(** A white 100x100 grey picture with a 5x5 chequered patch whose top
    left corner is at row 40, column 50. *)
Definition patch_pixel (r c : nat) : Z :=
  if ((40 <=? r)%nat && (r <? 45)%nat && (50 <=? c)%nat && (c <? 55)%nat
      && Nat.even (r + c))%bool
  then 0 else 255.

Definition patch_100 : PIL.image :=
  PIL.ImgL ((fun r => patch_pixel r <$> seq 0 100) <$> seq 0 100).

(** A one-pixel RGB picture (three bands, no alpha) and a world whose
    only file is that picture. *)
Definition rgb_dot : PIL.image := PIL.ImgRGB [[(10, 20, 30)]].

Definition rgb_dot_world : world :=
  World {[ "dot.png" := Picture rgb_dot ]} [].

(** A grey picture with a uniform first column, and what the variance
    detector crops it to. *)
Definition framed : PIL.image := PIL.ImgL [[100; 50; 51]; [100; 0; 90]].
Definition framed_cropped : PIL.image := PIL.ImgL [[50; 51]; [0; 90]].

(** A grey picture whose rows and columns all vary alike. *)
Definition chequer : PIL.image := PIL.ImgL [[0; 90]; [90; 0]].

(** A small RGBA logo with a transparent border. *)
Definition logo : PIL.image :=
  PIL.ImgRGBA [ [(0, 0, 0, 0); (0, 0, 0, 0); (0, 0, 0, 0)];
                [(0, 0, 0, 0); (9, 9, 9, 255); (0, 0, 0, 0)] ].

(** A directory with two pictures, [in/a.png] and [in/c.png], and no
    [in/b.png]. *)
Definition two_of_three : world :=
  World {[ "in/a.png" := Picture chequer; "in/c.png" := Picture chequer ]}
        [].

(** [main]'s directory with [a.png] and [c.png] but no [b.png]. *)
Definition logos_a_c : world :=
  World {[ input_path "a.png" := Picture logo;
           input_path "c.png" := Picture logo ]} [].

(** The same with an undecodable [b.png]. *)
Definition logos_a_bad_c : world :=
  World {[ input_path "a.png" := Picture logo;
           input_path "b.png" := Garbage;
           input_path "c.png" := Picture logo ]} [].

(** A grey array with one varying and one flat row. *)
Definition gradient : np.ndarray := np.Arr2 [[0; 10; 20]; [5; 5; 5]].

(** The settings of the script's own example run. *)
Definition example_run : image_processor.ImagePaddingRemover :=
  {| image_processor.threshold := 0.98;
     image_processor.min_content_ratio := 0.15 |}.

(** A 2x2 RGBA grid, transparent but for its last pixel. *)
Definition corner_dot : list (list (Z * Z * Z * Z)) :=
  [ [(0, 0, 0, 0); (0, 0, 0, 0)]; [(0, 0, 0, 0); (7, 8, 9, 200)] ].

(** A fully transparent 2x2 RGBA grid. *)
Definition clear_grid : list (list (Z * Z * Z * Z)) :=
  [ [(1, 2, 3, 0); (4, 5, 6, 0)]; [(0, 0, 0, 0); (0, 0, 0, 0)] ].

End Examples.

(** ** Further definitions for statements about the drivers *)

Module Props.

(** The path [process_batch] saves the picture of index [idx] to. *)
Definition batch_output (output_dir : string) (idx : nat) : string :=
  output_dir +:+ "/processed_" +:+ pretty idx +:+ ".png".

(** A file name without a slash. *)
Fixpoint slash_free (s : string) : Prop :=
  match s with
  | EmptyString => True
  | String c s' => c <> "/"%char /\ slash_free s'
  end.

(** The size of a grid as (width, height). *)
Definition grid_size {A} (g : list (list A)) : nat * nat :=
  (np.width g, np.height g).

End Props.
Export Props.

(** * Facts about the numpy operations *)

Section argmax_facts.

Implicit Types (l : list bool) (i j : nat).

Lemma first_true_Some l i :
  np.first_true l = Some i ->
  l !! i = Some true /\ forall j, (j < i)%nat -> l !! j = Some false.
Proof.
  revert i. induction l as [|b l IH]; intros i; simpl; [discriminate|].
  destruct b.
  - intros [= <-]. split; [reflexivity | intros j Hj; lia].
  - destruct (np.first_true l) as [k|] eqn:Hk; simpl; [|discriminate].
    intros [= <-]. destruct (IH k eq_refl) as [Hk1 Hk2]. split; [exact Hk1|].
    intros [|j] Hj; simpl; [reflexivity | apply Hk2; lia].
Qed.

Lemma first_true_None l j :
  np.first_true l = None -> l !! j = Some true -> False.
Proof.
  revert j. induction l as [|b l IH]; intros j; simpl; [discriminate|].
  destruct b; [discriminate|].
  destruct (np.first_true l) eqn:Hk; simpl; [discriminate|].
  intros _. destruct j as [|j]; simpl; [discriminate | eauto].
Qed.

Lemma first_true_le l j :
  l !! j = Some true ->
  exists i, np.first_true l = Some i /\ (i <= j)%nat.
Proof.
  intros Hj. destruct (np.first_true l) as [i|] eqn:Hi.
  - exists i. split; [reflexivity|].
    destruct (first_true_Some l i Hi) as [_ Hlt].
    destruct (decide (i <= j)%nat) as [|Hn]; [assumption|].
    rewrite Hlt in Hj by lia. discriminate.
  - destruct (first_true_None l j Hi Hj).
Qed.

Lemma argmax_nonempty l :
  l <> [] -> np.argmax l = Ok (Z.of_nat (default O (np.first_true l))).
Proof. destruct l; [congruence | reflexivity]. Qed.

(** The first [True] from the front and the first from the back leave
    at least one entry between them; so do the defaults when there is
    no [True] at all. *)
Lemma first_true_span l :
  l <> [] ->
  (default O (np.first_true l) + default O (np.first_true (reverse l))
   < length l)%nat.
Proof.
  intros Hne.
  assert (0 < length l)%nat as Hlen by (destruct l; [congruence | simpl; lia]).
  destruct (np.first_true l) as [i|] eqn:Hi; simpl.
  - destruct (first_true_Some l i Hi) as [Hi1 Hi2].
    assert (i < length l)%nat as Hil by (apply lookup_lt_is_Some; eauto).
    destruct (np.first_true (reverse l)) as [k|] eqn:Hk; simpl; [|lia].
    destruct (first_true_Some _ k Hk) as [Hk1 _].
    assert (k < length l)%nat as Hkl.
    { rewrite <- length_reverse. apply lookup_lt_is_Some; eauto. }
    rewrite reverse_lookup in Hk1 by assumption.
    destruct (decide (i <= length l - S k)%nat) as [|Hn]; [lia|].
    rewrite Hi2 in Hk1 by lia. discriminate.
  - destruct (np.first_true (reverse l)) as [k|] eqn:Hk; simpl; [|lia].
    destruct (first_true_Some _ k Hk) as [Hk1 _].
    assert (k < length l)%nat as Hkl.
    { rewrite <- length_reverse. apply lookup_lt_is_Some; eauto. }
    rewrite reverse_lookup in Hk1 by assumption.
    destruct (first_true_None _ _ Hi Hk1).
Qed.

End argmax_facts.

(** * The variance detector *)

Section variance_facts.

Import image_processor.
Implicit Types (self : ImagePaddingRemover) (a : np.ndarray).

Lemma height_map2 {A B} (f : A -> B) (g : list (list A)) :
  np.height (np.map2 f g) = np.height g.
Proof. unfold np.height, np.map2. apply length_fmap. Qed.

Lemma width_map2 {A B} (f : A -> B) (g : list (list A)) :
  np.width (np.map2 f g) = np.width g.
Proof. unfold np.width, np.map2. destruct g; simpl; [reflexivity | apply length_fmap]. Qed.

Lemma shape2_gray a :
  np.shape2 a = (Z.of_nat (np.height (gray_array a)),
                 Z.of_nat (np.width (gray_array a))).
Proof. destruct a; simpl; rewrite height_map2, width_map2; reflexivity. Qed.

Lemma length_row_vars a :
  Z.of_nat (length (row_vars a)) = (np.shape2 a).1.
Proof.
  rewrite shape2_gray. unfold row_vars, np.var_axis1. simpl.
  rewrite length_fmap. reflexivity.
Qed.

Lemma length_col_vars a :
  Z.of_nat (length (col_vars a)) = (np.shape2 a).2.
Proof.
  rewrite shape2_gray. unfold col_vars, np.var_axis0, np.columns. simpl.
  rewrite !length_fmap, length_seq. reflexivity.
Qed.

Lemma max_nonempty (vars : list Q) :
  vars <> [] -> exists m, np.max vars = Ok m.
Proof. destruct vars; [congruence | simpl; eauto]. Qed.

Lemma content_reverse (vars : list Q) thr :
  content (reverse vars) thr = reverse (content vars thr).
Proof. unfold content. apply fmap_reverse. Qed.

Lemma content_nonempty (vars : list Q) thr :
  vars <> [] -> content vars thr <> [].
Proof. destruct vars; [congruence | discriminate]. Qed.

Lemma compute_edge_boundaries_masks self a :
  row_vars a <> [] -> col_vars a <> [] ->
  exists mr mc,
    np.max (row_vars a) = Ok mr /\ np.max (col_vars a) = Ok mc /\
    _compute_edge_boundaries self a =
      Ok (box_of_masks
            (content (row_vars a) (mr * (1 - threshold self))%Q)
            (content (col_vars a) (mc * (1 - threshold self))%Q)).
Proof.
  intros Hr Hc.
  destruct (max_nonempty _ Hr) as [mr Hmr], (max_nonempty _ Hc) as [mc Hmc].
  exists mr, mc. split; [assumption|]. split; [assumption|].
  unfold _compute_edge_boundaries, var_threshold.
  rewrite Hmr, Hmc. simpl.
  rewrite !content_reverse.
  rewrite !argmax_nonempty;
    try (intros E; apply (f_equal reverse) in E;
         rewrite reverse_involutive in E; revert E);
    try (apply content_nonempty; assumption).
  simpl. unfold box_of_masks, content. rewrite !length_fmap. reflexivity.
Qed.

Lemma box_of_masks_proper (rows cols : list bool) :
  rows <> [] -> cols <> [] ->
  let '(top, bottom, lft, rgt) := box_of_masks rows cols in
  0 <= top < bottom /\ bottom <= Z.of_nat (length rows) /\
  0 <= lft < rgt /\ rgt <= Z.of_nat (length cols).
Proof.
  intros Hr Hc. unfold box_of_masks.
  pose proof (first_true_span rows Hr). pose proof (first_true_span cols Hc).
  lia.
Qed.

End variance_facts.

(** C10. For an array with at least one row and one column the boundary
    computation returns a box that is never degenerate:
    [0 <= top < bottom <= height] and [0 <= left < right <= width],
    whether or not some row or column is above its threshold. *)
Theorem edge_boundaries_never_degenerate
    (self : image_processor.ImagePaddingRemover) (a : np.ndarray)
    (height width : Z) :
  np.shape2 a = (height, width) -> 0 < height -> 0 < width ->
  exists top bottom lft rgt,
    image_processor._compute_edge_boundaries self a
      = Ok (top, bottom, lft, rgt) /\
    0 <= top < bottom /\ bottom <= height /\
    0 <= lft < rgt /\ rgt <= width.
Proof.
  intros Hshape Hh Hw.
  pose proof (length_row_vars a) as Lr. pose proof (length_col_vars a) as Lc.
  rewrite Hshape in Lr, Lc. simpl in Lr, Lc.
  assert (image_processor.row_vars a <> []) as Hr
    by (intros E; rewrite E in Lr; simpl in Lr; lia).
  assert (image_processor.col_vars a <> []) as Hc
    by (intros E; rewrite E in Lc; simpl in Lc; lia).
  destruct (compute_edge_boundaries_masks self a Hr Hc)
    as (mr & mc & _ & _ & Hbox).
  set (rows := image_processor.content _ _) in Hbox.
  set (cols := image_processor.content _ _) in Hbox.
  pose proof (box_of_masks_proper rows cols) as Hp.
  destruct (box_of_masks rows cols) as [[[top bottom] lft] rgt].
  exists top, bottom, lft, rgt. split; [exact Hbox|].
  assert (length rows = length (image_processor.row_vars a)) as Er
    by apply length_fmap.
  assert (length cols = length (image_processor.col_vars a)) as Ec
    by apply length_fmap.
  destruct Hp as (? & ? & ? & ?).
  - subst rows. apply content_nonempty, Hr.
  - subst cols. apply content_nonempty, Hc.
  - rewrite Er, Lr in *. rewrite Ec, Lc in *. auto.
Qed.

Section empty_and_uniform.

Import image_processor.
Implicit Types (self : ImagePaddingRemover) (a : np.ndarray).

Lemma var_threshold_empty self :
  var_threshold self [] = Raise (ValueError
    "zero-size array to reduction operation maximum which has no identity").
Proof. reflexivity. Qed.

Lemma Qmaxb_idem (v : Q) : np.Qmaxb v v = v.
Proof. unfold np.Qmaxb. destruct (Qle_bool v v); reflexivity. Qed.

Lemma max_replicate (n : nat) (v : Q) :
  np.max (replicate (S n) v) = Ok v.
Proof.
  simpl. f_equal. induction n as [|n IH]; simpl; [reflexivity|].
  rewrite Qmaxb_idem. exact IH.
Qed.

Lemma first_true_replicate (n : nat) (b : bool) :
  default O (np.first_true (replicate n b)) = O.
Proof.
  destruct n as [|n]; [reflexivity|]. destruct b; [reflexivity|]. simpl.
  induction n as [|n IH]; [reflexivity|]. simpl.
  destruct (np.first_true (replicate n false)); [discriminate | reflexivity].
Qed.

Lemma box_of_masks_replicate (h w : nat) (br bc : bool) :
  box_of_masks (replicate h br) (replicate w bc)
  = (0, Z.of_nat h, 0, Z.of_nat w).
Proof.
  unfold box_of_masks.
  rewrite !reverse_replicate, !first_true_replicate, !length_replicate.
  simpl. rewrite !Z.sub_0_r. reflexivity.
Qed.

(** When all rows have one variance and all columns have one variance,
    the masks are constant and the box is the whole picture. *)
Lemma compute_edge_boundaries_constant_vars self a (h w : nat) (rv cv : Q) :
  (0 < h)%nat -> (0 < w)%nat ->
  row_vars a = replicate h rv -> col_vars a = replicate w cv ->
  _compute_edge_boundaries self a = Ok (0, Z.of_nat h, 0, Z.of_nat w).
Proof.
  intros Hh Hw Er Ec.
  destruct (compute_edge_boundaries_masks self a) as (mr & mc & _ & _ & ->).
  - rewrite Er. destruct h; [lia | discriminate].
  - rewrite Ec. destruct w; [lia | discriminate].
  - rewrite Er, Ec. unfold content. rewrite !fmap_replicate.
    rewrite box_of_masks_replicate. reflexivity.
Qed.

Lemma columns_replicate (h w : nat) (q : Q) :
  (0 < h)%nat ->
  np.columns (replicate h (replicate w q)) = replicate w (replicate h q).
Proof.
  intros Hh. unfold np.columns.
  assert (np.width (replicate h (replicate w q)) = w) as ->.
  { destruct h; [lia|]. unfold np.width. simpl. apply length_replicate. }
  apply list_eq. intros j.
  rewrite list_lookup_fmap.
  destruct (decide (j < w)%nat) as [Hj|Hj].
  - rewrite lookup_seq_lt, lookup_replicate_2 by assumption. simpl.
    rewrite fmap_replicate, lookup_replicate_2 by assumption. reflexivity.
  - rewrite lookup_seq_ge by lia. simpl. symmetry.
    apply lookup_replicate_None. lia.
Qed.

Lemma vars_of_uniform_gray a (h w : nat) (q : Q) :
  (0 < h)%nat ->
  gray_array a = replicate h (replicate w q) ->
  row_vars a = replicate h (np.var (replicate w q)) /\
  col_vars a = replicate w (np.var (replicate h q)).
Proof.
  intros Hh E. unfold row_vars, col_vars, np.var_axis1, np.var_axis0.
  rewrite E, columns_replicate, !fmap_replicate by assumption. auto.
Qed.

Lemma map2_replicate {A B} (f : A -> B) (h w : nat) (x : A) :
  np.map2 f (replicate h (replicate w x)) = replicate h (replicate w (f x)).
Proof. unfold np.map2. rewrite !fmap_replicate. reflexivity. Qed.

Lemma shape2_replicate2 (h w : nat) (v : Z) :
  (0 < h)%nat ->
  np.shape2 (np.Arr2 (replicate h (replicate w v)))
  = (Z.of_nat h, Z.of_nat w).
Proof.
  intros Hh. destruct h; [lia|]. simpl. unfold np.height, np.width. simpl.
  rewrite !length_replicate. reflexivity.
Qed.

Lemma shape2_replicate3 (h w : nat) (px : list Z) :
  (0 < h)%nat ->
  np.shape2 (np.Arr3 (replicate h (replicate w px)))
  = (Z.of_nat h, Z.of_nat w).
Proof.
  intros Hh. destruct h; [lia|]. simpl. unfold np.height, np.width. simpl.
  rewrite !length_replicate. reflexivity.
Qed.

Lemma margin_nonneg (height width : Z) :
  0 <= height -> 0 <= width -> 0 <= margin height width.
Proof.
  intros Hh Hw. unfold margin, np.int. simpl.
  apply Z.quot_pos; lia.
Qed.

Lemma preserve_full (height width : Z) :
  0 <= height -> 0 <= width ->
  preserve height width (0, height, 0, width) = (0, height, 0, width).
Proof.
  intros Hh Hw. unfold preserve.
  pose proof (margin_nonneg height width Hh Hw).
  f_equal; [f_equal; [f_equal|] |]; lia.
Qed.

Lemma validate_full self (height width : Z) :
  0 <= height -> 0 <= width ->
  validate self height width (0, height, 0, width) = (0, height, 0, width).
Proof.
  intros Hh Hw. unfold validate.
  destruct (too_aggressive _ _ _ _); [apply preserve_full; assumption|].
  reflexivity.
Qed.

(** Validation keeps a box that is proper and inside the picture so;
    with the bounds of [_compute_edge_boundaries], [crop] is only ever
    handed a region of the picture. *)
Lemma validate_inside self (height width top bottom lft rgt : Z) :
  0 <= top < bottom -> bottom <= height ->
  0 <= lft < rgt -> rgt <= width ->
  let '(top', bottom', lft', rgt') :=
    validate self height width (top, bottom, lft, rgt) in
  0 <= top' < bottom' /\ bottom' <= height /\
  0 <= lft' < rgt' /\ rgt' <= width.
Proof.
  intros Ht Hb Hl Hr. unfold validate.
  destruct (too_aggressive _ _ _ _); [|lia].
  unfold preserve.
  pose proof (margin_nonneg height width ltac:(lia) ltac:(lia)). lia.
Qed.

End empty_and_uniform.

(** C8. An array with no rows or no columns makes the boundary
    computation raise: the maximum over an empty vector of variances is
    numpy's [ValueError] (the invalid-image failure), and nothing is
    returned, neither by [_compute_edge_boundaries] nor by the code that
    validates its box. *)
Theorem empty_array_raises
    (self : image_processor.ImagePaddingRemover) (a : np.ndarray) :
  (np.shape2 a).1 = 0 \/ (np.shape2 a).2 = 0 ->
  exists msg,
    image_processor._compute_edge_boundaries self a = Raise (ValueError msg)
    /\ image_processor.crop_boundaries self a = Raise (ValueError msg).
Proof.
  intros Hz.
  exists "zero-size array to reduction operation maximum which has no identity".
  match goal with |- ?P /\ _ => assert P as E end;
    [|split; [exact E|];
      unfold image_processor.crop_boundaries; rewrite E; reflexivity].
  unfold image_processor._compute_edge_boundaries.
  rewrite <- length_row_vars, <- length_col_vars in Hz.
  destruct (image_processor.row_vars a) as [|rv rvs] eqn:Er; [reflexivity|].
  destruct Hz as [Hz|Hz]; [simpl in Hz; lia|].
  destruct (image_processor.col_vars a) as [|cv cvs] eqn:Ec;
    [reflexivity | simpl in Hz; lia].
Qed.

(** C4. A picture of [h] rows and [w] columns ([h], [w] positive) whose
    pixels are all equal, grey ([Arr2]) or with bands ([Arr3]): the
    boundary computation returns, with [top = 0]; the box is the whole
    picture, and it is still that after validation. *)
Theorem uniform_image_top_zero
    (self : image_processor.ImagePaddingRemover) (a : np.ndarray)
    (h w : nat) :
  (0 < h)%nat -> (0 < w)%nat ->
  (exists v, a = np.Arr2 (replicate h (replicate w v))) \/
  (exists px, a = np.Arr3 (replicate h (replicate w px))) ->
  image_processor._compute_edge_boundaries self a
    = Ok (0, Z.of_nat h, 0, Z.of_nat w) /\
  image_processor.crop_boundaries self a
    = Ok (0, Z.of_nat h, 0, Z.of_nat w).
Proof.
  intros Hh Hw Ha.
  assert (exists q, image_processor.gray_array a = replicate h (replicate w q)
          /\ np.shape2 a = (Z.of_nat h, Z.of_nat w)) as (q & Eg & Es).
  { destruct Ha as [[v ->]|[px ->]]; eexists; simpl;
      (split; [apply map2_replicate|]).
    - apply shape2_replicate2, Hh.
    - apply shape2_replicate3, Hh. }
  destruct (vars_of_uniform_gray a h w q Hh Eg) as [Er Ec].
  pose proof (compute_edge_boundaries_constant_vars self a h w _ _ Hh Hw Er Ec)
    as E.
  split; [exact E|].
  unfold image_processor.crop_boundaries. rewrite E, Es. simpl.
  rewrite validate_full by lia. reflexivity.
Qed.

Section threshold_facts.

Import image_processor.
Local Open Scope Q_scope.

Lemma Qgtb_true (v thr : Q) : np.Qgtb v thr = true <-> thr < v.
Proof.
  unfold np.Qgtb. rewrite negb_true_iff, <- not_true_iff_false.
  rewrite Qle_bool_iff. split; [apply Qnot_le_lt | apply Qlt_not_le].
Qed.

Lemma sum_nonneg (l : list Q) : Forall (Qle 0) l -> 0 <= np.sum l.
Proof.
  induction 1 as [|x l Hx _ IH]; simpl; [apply Qle_refl|].
  replace 0 with (0 + 0) by reflexivity. apply Qplus_le_compat; assumption.
Qed.

Lemma mean_nonneg (l : list Q) : Forall (Qle 0) l -> 0 <= np.mean l.
Proof.
  intros Hl. unfold np.mean, Qdiv. apply Qmult_le_0_compat.
  - apply sum_nonneg, Hl.
  - apply Qinv_le_0_compat. unfold Qle. simpl. lia.
Qed.

Lemma square_nonneg (x : Q) : 0 <= x * x.
Proof. unfold Qle. simpl. nia. Qed.

Lemma var_nonneg (l : list Q) : 0 <= np.var l.
Proof.
  unfold np.var. apply mean_nonneg, Forall_fmap, Forall_forall.
  intros x _. apply square_nonneg.
Qed.

Lemma foldl_Qmaxb_nonneg (l : list Q) (x : Q) :
  0 <= x -> Forall (Qle 0) l -> 0 <= foldl np.Qmaxb x l.
Proof.
  intros Hx Hl. revert x Hx. induction Hl as [|y l Hy _ IH]; intros x Hx;
    simpl; [assumption|].
  apply IH. unfold np.Qmaxb. destruct (Qle_bool x y); assumption.
Qed.

Lemma max_nonneg (l : list Q) (m : Q) :
  Forall (Qle 0) l -> np.max l = Ok m -> 0 <= m.
Proof.
  destruct 1 as [|x l Hx Hl]; simpl; [discriminate|].
  intros [= <-]. apply foldl_Qmaxb_nonneg; assumption.
Qed.

Lemma Qmaxb_upper (x y : Q) : x <= np.Qmaxb x y /\ y <= np.Qmaxb x y.
Proof.
  unfold np.Qmaxb. destruct (Qle_bool x y) eqn:E.
  - apply Qle_bool_iff in E. split; [exact E | apply Qle_refl].
  - split; [apply Qle_refl|]. apply Qlt_le_weak, Qnot_le_lt.
    intros H. apply Qle_bool_iff in H. congruence.
Qed.

Lemma foldl_Qmaxb_greatest (l : list Q) (x : Q) :
  x <= foldl np.Qmaxb x l /\
  Forall (fun v => v <= foldl np.Qmaxb x l) l /\
  In (foldl np.Qmaxb x l) (x :: l).
Proof.
  revert x. induction l as [|y l IH]; intros x; simpl.
  - split; [apply Qle_refl|]. split; [constructor | left; reflexivity].
  - destruct (IH (np.Qmaxb x y)) as (Hx & Hl & Hin).
    destruct (Qmaxb_upper x y) as [Hxm Hym].
    split; [eapply Qle_trans; eassumption|].
    split; [constructor; [eapply Qle_trans; eassumption | exact Hl]|].
    destruct Hin as [Hin|Hin]; [|right; right; exact Hin].
    rewrite <- Hin. unfold np.Qmaxb.
    destruct (Qle_bool x y); [right; left | left]; reflexivity.
Qed.

(** [np.max] returns an entry of the array that no entry exceeds. *)
Lemma max_greatest (l : list Q) (m : Q) :
  np.max l = Ok m -> Forall (fun v => v <= m) l /\ In m l.
Proof.
  destruct l as [|x l]; simpl; [discriminate|]. intros [= <-].
  destruct (foldl_Qmaxb_greatest l x) as (Hx & Hl & Hin).
  split; [constructor; assumption | exact Hin].
Qed.

Lemma row_vars_nonneg a : Forall (Qle 0) (row_vars a).
Proof.
  unfold row_vars, np.var_axis1. apply Forall_fmap, Forall_forall.
  intros x _. apply var_nonneg.
Qed.

Lemma col_vars_nonneg a : Forall (Qle 0) (col_vars a).
Proof.
  unfold col_vars, np.var_axis0. apply Forall_fmap, Forall_forall.
  intros x _. apply var_nonneg.
Qed.

(** A larger similarity threshold gives a smaller variance threshold. *)
Lemma scaled_threshold_antitone (m t1 t2 : Q) :
  0 <= m -> t1 <= t2 -> m * (1 - t2) <= m * (1 - t1).
Proof.
  intros Hm Ht. rewrite !(Qmult_comm m). apply Qmult_le_compat_r; [|exact Hm].
  apply Qplus_le_r, Qopp_le_compat, Ht.
Qed.

Lemma content_lookup_true (vars : list Q) (thr : Q) (i : nat) :
  content vars thr !! i = Some true <->
  exists v, vars !! i = Some v /\ thr < v.
Proof.
  unfold content. rewrite list_lookup_fmap. split.
  - destruct (vars !! i) as [v|]; simpl; [|discriminate].
    intros [= H]. exists v. split; [reflexivity | apply Qgtb_true, H].
  - intros (v & -> & Hv). simpl. f_equal. apply Qgtb_true, Hv.
Qed.

End threshold_facts.

(** C2. The threshold against which the row variances (or the column
    variances) are compared is [m * (1 - self.threshold)] for the largest
    variance [m]; with a larger [self.threshold] the threshold is not
    larger, and every row or column that counted as content still
    does. *)
Theorem higher_threshold_more_permissive
    (s1 s2 : image_processor.ImagePaddingRemover) (a : np.ndarray)
    (vars : list Q) :
  (image_processor.threshold s1 <= image_processor.threshold s2)%Q ->
  vars = image_processor.row_vars a \/ vars = image_processor.col_vars a ->
  vars <> [] ->
  exists m thr1 thr2,
    np.max vars = Ok m /\
    In m vars /\ Forall (fun v => (v <= m)%Q) vars /\
    thr1 = (m * (1 - image_processor.threshold s1))%Q /\
    thr2 = (m * (1 - image_processor.threshold s2))%Q /\
    image_processor.var_threshold s1 vars = Ok thr1 /\
    image_processor.var_threshold s2 vars = Ok thr2 /\
    (thr2 <= thr1)%Q /\
    forall i : nat,
      image_processor.content vars thr1 !! i = Some true ->
      image_processor.content vars thr2 !! i = Some true.
Proof.
  intros Ht Hv Hne.
  destruct (max_nonempty vars Hne) as [m Hm].
  assert (0 <= m)%Q as Hm0.
  { apply (max_nonneg vars); [|exact Hm].
    destruct Hv as [-> | ->]; [apply row_vars_nonneg | apply col_vars_nonneg]. }
  pose proof (scaled_threshold_antitone m _ _ Hm0 Ht) as Hle.
  destruct (max_greatest vars m Hm) as [Hupper Hin].
  eexists m, _, _. split; [exact Hm|].
  split; [exact Hin|]. split; [exact Hupper|].
  split; [reflexivity|]. split; [reflexivity|].
  unfold image_processor.var_threshold. rewrite Hm. simpl.
  split; [reflexivity|]. split; [reflexivity|]. split; [exact Hle|].
  intros i. rewrite !content_lookup_true. intros (v & Hi & Hlt).
  exists v. split; [exact Hi|]. eapply Qle_lt_trans; eassumption.
Qed.

Section margin_facts.

Import image_processor.

Lemma too_aggressive_true self (height width top bottom lft rgt : Z) :
  too_aggressive self height width (top, bottom, lft, rgt) = true <->
  (inject_Z (bottom - top) / inject_Z height < min_content_ratio self)%Q \/
  (inject_Z (rgt - lft) / inject_Z width < min_content_ratio self)%Q.
Proof.
  unfold too_aggressive. rewrite orb_true_iff, !Qgtb_true. reflexivity.
Qed.

(** [int(min(height, width) * 0.05)] is the floor of that product. *)
Lemma margin_floor (height width : Z) :
  0 <= height -> 0 <= width ->
  margin height width = Qfloor (inject_Z (Z.min height width) * 0.05).
Proof.
  intros Hh Hw. unfold margin, np.int, Qfloor. simpl.
  apply Z.quot_div_nonneg; lia.
Qed.

Lemma margin_100 : margin 100 100 = 5.
Proof. reflexivity. Qed.

Lemma patch_100_detected :
  _compute_edge_boundaries with_defaults (PIL.np_array Examples.patch_100)
  = Ok (40, 45, 50, 55).
Proof. vm_compute. reflexivity. Qed.

End margin_facts.

(** C5. When the detected box is too small in height or in width
    relative to the picture, the box that is cropped is the detected box
    moved out by [margin = floor(min(height, width) * 0.05)] on each side
    and clamped to the picture.  For a 100x100 picture and a 5x5 box with
    the default [min_content_ratio] the margin is 5; the picture
    [patch_100] is such a case from detection to the final box. *)
Theorem small_box_expanded_by_margin :
  (forall (self : image_processor.ImagePaddingRemover)
          (height width top bottom lft rgt : Z),
     0 < height -> 0 < width ->
     (inject_Z (bottom - top) / inject_Z height
        < image_processor.min_content_ratio self)%Q \/
     (inject_Z (rgt - lft) / inject_Z width
        < image_processor.min_content_ratio self)%Q ->
     let margin := Qfloor (inject_Z (Z.min height width) * 0.05) in
     let box := image_processor.validate self height width
                  (top, bottom, lft, rgt) in
     box = (Z.max 0 (top - margin), Z.min height (bottom + margin),
            Z.max 0 (lft - margin), Z.min width (rgt + margin)) /\
     0 <= box.1.1.1 /\ box.1.1.2 <= height /\
     0 <= box.1.2 /\ box.2 <= width) /\
  (forall top lft : Z,
     Qfloor (inject_Z (Z.min 100 100) * 0.05) = 5 /\
     image_processor.validate image_processor.with_defaults 100 100
       (top, top + 5, lft, lft + 5)
     = (Z.max 0 (top - 5), Z.min 100 (top + 5 + 5),
        Z.max 0 (lft - 5), Z.min 100 (lft + 5 + 5)) /\
     (5 <= top -> top + 10 <= 100 -> 5 <= lft -> lft + 10 <= 100 ->
      image_processor.validate image_processor.with_defaults 100 100
        (top, top + 5, lft, lft + 5)
      = (top - 5, top + 5 + 5, lft - 5, lft + 5 + 5))) /\
  (np.shape2 (PIL.np_array Examples.patch_100) = (100, 100) /\
   image_processor._compute_edge_boundaries image_processor.with_defaults
     (PIL.np_array Examples.patch_100) = Ok (40, 45, 50, 55) /\
   image_processor.crop_boundaries image_processor.with_defaults
     (PIL.np_array Examples.patch_100) = Ok (35, 50, 45, 60)).
Proof.
  split; [|split].
  - intros self height width top bottom lft rgt Hh Hw Hsmall margin box.
    assert (box = (Z.max 0 (top - margin), Z.min height (bottom + margin),
                   Z.max 0 (lft - margin), Z.min width (rgt + margin))) as E.
    { subst box margin. unfold image_processor.validate.
      rewrite (proj2 (too_aggressive_true _ _ _ _ _ _ _) Hsmall).
      unfold image_processor.preserve. rewrite margin_floor by lia.
      reflexivity. }
    split; [exact E|]. rewrite E. simpl. lia.
  - intros top lft. split; [reflexivity|].
    assert (image_processor.validate image_processor.with_defaults 100 100
              (top, top + 5, lft, lft + 5)
            = (Z.max 0 (top - 5), Z.min 100 (top + 5 + 5),
               Z.max 0 (lft - 5), Z.min 100 (lft + 5 + 5))) as E.
    { unfold image_processor.validate.
      rewrite (proj2 (too_aggressive_true _ _ _ _ _ _ _)).
      - unfold image_processor.preserve. rewrite margin_100. reflexivity.
      - left. replace (top + 5 - top) with 5 by lia. reflexivity. }
    split; [exact E|]. intros. rewrite E.
    f_equal; [f_equal; [f_equal|] |]; lia.
  - split; [reflexivity|]. split; [exact patch_100_detected|].
    unfold image_processor.crop_boundaries. rewrite patch_100_detected.
    reflexivity.
Qed.

(** * The alpha detector *)

Section where_facts.

Implicit Types (l : list bool) (i j lo hi : nat).

Lemma existsb_lookup {A} (f : A -> bool) (xs : list A) :
  existsb f xs = true <-> exists i x, xs !! i = Some x /\ f x = true.
Proof.
  rewrite existsb_exists. split.
  - intros (x & Hin & Hf). apply list_elem_of_In, list_elem_of_lookup in Hin.
    destruct Hin as [i Hi]. eauto.
  - intros (i & x & Hi & Hf). exists x. split; [|exact Hf].
    apply list_elem_of_In, list_elem_of_lookup. eauto.
Qed.

Lemma where_from_no_true l (i : Z) :
  (forall j, l !! j <> Some true) -> np.where_from i l = [].
Proof.
  revert i. induction l as [|b l IH]; intros i Hno; simpl; [reflexivity|].
  destruct b; [destruct (Hno O); reflexivity|].
  apply IH. intros j. apply (Hno (S j)).
Qed.

Lemma last_cons {A} (x d : A) (xs : list A) :
  List.last (x :: xs) d = List.last xs x.
Proof.
  revert x d. induction xs as [|y xs IH]; intros x d; [reflexivity|].
  change (List.last (x :: y :: xs) d) with (List.last (y :: xs) d).
  rewrite !IH. reflexivity.
Qed.

Lemma last_where_from l (i : Z) (d : Z) hi :
  l !! hi = Some true -> (forall j, (hi < j)%nat -> l !! j <> Some true) ->
  List.last (np.where_from i l) d = i + Z.of_nat hi.
Proof.
  revert i d hi. induction l as [|b l IH]; intros i d hi Hhi Hno;
    [discriminate|].
  destruct hi as [|hi]; simpl in *.
  - injection Hhi as ->.
    rewrite (where_from_no_true l) by (intros j; apply (Hno (S j)); lia).
    simpl. lia.
  - assert (forall d', List.last (np.where_from (i + 1) l) d'
                       = i + 1 + Z.of_nat hi) as E.
    { intros d'. apply IH; [exact Hhi|].
      intros j Hj. apply (Hno (S j)). lia. }
    destruct b; [rewrite last_cons|]; rewrite E; lia.
Qed.

Lemma hd_where_from l (i : Z) lo :
  l !! lo = Some true -> (forall j, (j < lo)%nat -> l !! j = Some false) ->
  exists rest, np.where_from i l = (i + Z.of_nat lo) :: rest.
Proof.
  revert i lo. induction l as [|b l IH]; intros i lo Hlo Hno; [discriminate|].
  destruct lo as [|lo]; simpl in *.
  - injection Hlo as ->. eexists. f_equal. lia.
  - specialize (Hno O ltac:(lia)) as Hb. simpl in Hb. injection Hb as ->.
    destruct (IH (i + 1) lo Hlo) as [rest ->].
    { intros j Hj. apply (Hno (S j)). lia. }
    eexists. f_equal. lia.
Qed.

(** [np.where(l)[0][[0, -1]]] is the first and the last index of a
    [True]. *)
Lemma first_last_where l lo hi :
  l !! lo = Some true -> (forall j, (j < lo)%nat -> l !! j = Some false) ->
  l !! hi = Some true -> (forall j, (hi < j)%nat -> l !! j <> Some true) ->
  np.first_last (np.where_ l) = Ok (Z.of_nat lo, Z.of_nat hi).
Proof.
  intros Hlo Hbefore Hhi Hafter. unfold np.where_.
  pose proof (last_where_from l 0 0 hi Hhi Hafter) as Hlast.
  destruct (hd_where_from l 0 lo Hlo Hbefore) as [rest E].
  rewrite E in Hlast |- *. simpl np.first_last.
  rewrite last_cons in Hlast.
  destruct rest as [|y rest]; simpl in *.
  - f_equal. f_equal; lia.
  - rewrite Hlast. f_equal.
Qed.

(** A list with a [True] has a first and a last one. *)
Lemma first_and_last_true l i :
  l !! i = Some true ->
  exists lo hi,
    (lo <= i <= hi)%nat /\ (hi < length l)%nat /\
    l !! lo = Some true /\ l !! hi = Some true /\
    (forall j, (j < lo)%nat -> l !! j = Some false) /\
    (forall j, (hi < j)%nat -> l !! j <> Some true).
Proof.
  intros Hi.
  assert (i < length l)%nat as Hil by (apply lookup_lt_is_Some; eauto).
  destruct (first_true_le l i Hi) as (lo & Hlo & Hloi).
  destruct (first_true_Some l lo Hlo) as [Hlo1 Hlo2].
  assert (reverse l !! (length l - S i)%nat = Some true) as Hri.
  { rewrite reverse_lookup by lia.
    replace (length l - S (length l - S i))%nat with i by lia. exact Hi. }
  destruct (first_true_le _ _ Hri) as (k & Hk & Hki).
  destruct (first_true_Some _ k Hk) as [Hk1 Hk2].
  exists lo, (length l - S k)%nat.
  split; [lia|]. split; [lia|]. split; [exact Hlo1|].
  split; [rewrite reverse_lookup in Hk1 by lia; exact Hk1|].
  split; [exact Hlo2|].
  intros j Hj Hjt.
  assert (j < length l)%nat as Hjl by (apply lookup_lt_is_Some; eauto).
  specialize (Hk2 (length l - S j)%nat ltac:(lia)).
  rewrite reverse_lookup in Hk2 by lia.
  replace (length l - S (length l - S j))%nat with j in Hk2 by lia.
  congruence.
Qed.

End where_facts.

Section mask_facts.

Import imagedit.
Implicit Types (m : list (list bool)) (r c : nat).

Lemma at2_Some {A} (g : list (list A)) r c (x : A) :
  at2 g r c = Some x <-> exists row, g !! r = Some row /\ row !! c = Some x.
Proof.
  unfold at2. destruct (g !! r) as [row|]; simpl.
  - split; [eauto | intros (? & [= <-] & ?); assumption].
  - split; [discriminate | intros (? & ? & _); discriminate].
Qed.

Lemma at2_map2 {A B} (f : A -> B) (g : list (list A)) r c :
  at2 (np.map2 f g) r c = f <$> at2 g r c.
Proof.
  unfold at2, np.map2. rewrite list_lookup_fmap.
  destruct (g !! r) as [row|]; simpl; [apply list_lookup_fmap | reflexivity].
Qed.

Lemma at2_mask (g : list (list (Z * Z * Z * Z))) r c :
  at2 (mask g) r c = (fun p => 0 <? alpha p) <$> at2 g r c.
Proof.
  unfold mask. rewrite at2_map2. destruct (at2 g r c) as [[[[? ?] ?] ?]|];
    reflexivity.
Qed.

Lemma rectangular_width {A} (g : list (list A)) r c (x : A) :
  rectangular g -> at2 g r c = Some x -> (c < np.width g)%nat.
Proof.
  intros Hrect Hx. apply at2_Some in Hx as (row & Hrow & Hc).
  rewrite <- (proj1 (Forall_lookup _ _) Hrect r row Hrow).
  apply lookup_lt_is_Some. eauto.
Qed.

Lemma rectangular_map2 {A B} (f : A -> B) (g : list (list A)) :
  rectangular g -> rectangular (np.map2 f g).
Proof.
  unfold rectangular. rewrite width_map2. unfold np.map2.
  intros H. apply Forall_fmap. eapply Forall_impl; [exact H|].
  intros row Hrow. simpl. rewrite length_fmap. exact Hrow.
Qed.

Lemma any_true m :
  np.any m = true <-> exists r c, at2 m r c = Some true.
Proof.
  unfold np.any. rewrite existsb_lookup. split.
  - intros (r & row & Hr & Hex). apply existsb_lookup in Hex
      as (c & b & Hc & Hb). unfold id in Hb. subst b.
    exists r, c. apply at2_Some. eauto.
  - intros (r & c & H). apply at2_Some in H as (row & Hr & Hc).
    exists r, row. split; [exact Hr|]. apply existsb_lookup.
    exists c, true. auto.
Qed.

Lemma any_axis1_true m r :
  np.any_axis1 m !! r = Some true <-> exists c, at2 m r c = Some true.
Proof.
  unfold np.any_axis1. rewrite list_lookup_fmap. split.
  - destruct (m !! r) as [row|] eqn:Hr; simpl; [|discriminate].
    intros [= Hex]. apply existsb_lookup in Hex as (c & b & Hc & Hb).
    unfold id in Hb. subst b. exists c. apply at2_Some. eauto.
  - intros (c & H). apply at2_Some in H as (row & -> & Hc). simpl. f_equal.
    apply existsb_lookup. exists c, true. auto.
Qed.

Lemma any_axis0_true m c :
  rectangular m ->
  np.any_axis0 m !! c = Some true <-> exists r, at2 m r c = Some true.
Proof.
  intros Hrect. unfold np.any_axis0. rewrite list_lookup_fmap. split.
  - destruct (seq 0 (np.width m) !! c) as [c'|] eqn:Hc; simpl;
      [|discriminate].
    apply lookup_seq in Hc as [-> _]. simpl.
    intros [= Hex]. apply existsb_lookup in Hex as (r & row & Hr & Hb).
    exists r. apply at2_Some. exists row. split; [exact Hr|].
    destruct (row !! c) as [b|]; simpl in Hb; [subst b; reflexivity|].
    discriminate.
  - intros (r & H). pose proof (rectangular_width m r c true Hrect H) as Hw.
    rewrite lookup_seq_lt by exact Hw. simpl. f_equal.
    apply at2_Some in H as (row & Hr & Hc).
    apply existsb_lookup. exists r, row. split; [exact Hr|].
    rewrite Hc. reflexivity.
Qed.

Lemma lookup_bool_false (l : list bool) i :
  (i < length l)%nat -> l !! i <> Some true -> l !! i = Some false.
Proof.
  intros Hi Hne. apply lookup_lt_is_Some in Hi as [[|] Hb]; congruence.
Qed.

(** The box of a rectangular mask with at least one [True]: the
    smallest rectangle that holds every [True] cell. *)
Lemma crop_box_spec m :
  rectangular m -> np.any m = true ->
  exists ylo yhi xlo xhi : nat,
    crop_box m = Ok (Z.of_nat xlo, Z.of_nat ylo,
                     Z.of_nat xhi + 1, Z.of_nat yhi + 1) /\
    (ylo <= yhi < np.height m)%nat /\ (xlo <= xhi < np.width m)%nat /\
    (exists c, at2 m ylo c = Some true) /\
    (exists c, at2 m yhi c = Some true) /\
    (exists r, at2 m r xlo = Some true) /\
    (exists r, at2 m r xhi = Some true) /\
    (forall r c, at2 m r c = Some true ->
                 (ylo <= r <= yhi)%nat /\ (xlo <= c <= xhi)%nat).
Proof.
  intros Hrect Hany. apply any_true in Hany as (r0 & c0 & H0).
  assert (np.any_axis1 m !! r0 = Some true) as Hr0
    by (apply any_axis1_true; eauto).
  assert (np.any_axis0 m !! c0 = Some true) as Hc0
    by (apply any_axis0_true; eauto).
  destruct (first_and_last_true _ _ Hr0)
    as (ylo & yhi & Hy & Hyl & Hylo & Hyhi & Hybefore & Hyafter).
  destruct (first_and_last_true _ _ Hc0)
    as (xlo & xhi & Hx & Hxl & Hxlo & Hxhi & Hxbefore & Hxafter).
  exists ylo, yhi, xlo, xhi.
  split.
  { unfold crop_box.
    rewrite (first_last_where _ ylo yhi), (first_last_where _ xlo xhi)
      by assumption.
    reflexivity. }
  split.
  { unfold np.any_axis1 in Hyl. rewrite length_fmap in Hyl.
    unfold np.height. lia. }
  split.
  { unfold np.any_axis0 in Hxl. rewrite length_fmap, length_seq in Hxl.
    lia. }
  split; [apply any_axis1_true, Hylo|].
  split; [apply any_axis1_true, Hyhi|].
  split; [apply any_axis0_true; assumption|].
  split; [apply any_axis0_true; assumption|].
  intros r c Hrc.
  assert (np.any_axis1 m !! r = Some true) as Hr
    by (apply any_axis1_true; eauto).
  assert (np.any_axis0 m !! c = Some true) as Hc
    by (apply any_axis0_true; eauto).
  split; split.
  - destruct (decide (ylo <= r)%nat) as [|Hn]; [assumption|].
    rewrite Hybefore in Hr by lia. discriminate.
  - destruct (decide (r <= yhi)%nat) as [|Hn]; [assumption|].
    destruct (Hyafter r ltac:(lia) Hr).
  - destruct (decide (xlo <= c)%nat) as [|Hn]; [assumption|].
    rewrite Hxbefore in Hc by lia. discriminate.
  - destruct (decide (c <= xhi)%nat) as [|Hn]; [assumption|].
    destruct (Hxafter c ltac:(lia) Hc).
Qed.

End mask_facts.

Lemma take_1_drop {A} (xs : list A) (i : nat) (x : A) :
  xs !! i = Some x -> take 1 (drop i xs) = [x].
Proof.
  intros H. rewrite (drop_S _ _ _ H). simpl. rewrite take_0. reflexivity.
Qed.

Section crop_facts.

Context {A : Type}.
Implicit Types (g : list (list A)) (row : list A).

Lemma crop_grid_full g :
  rectangular g ->
  PIL.crop_grid (0, 0, Z.of_nat (np.width g), Z.of_nat (np.height g)) g = g.
Proof.
  intros Hrect. unfold PIL.crop_grid, np.height.
  rewrite !Z.sub_0_r, !Nat2Z.id. change (Z.to_nat 0) with O.
  rewrite drop_0, take_ge by lia.
  rewrite <- (list_fmap_id g) at 2. apply Forall_fmap_ext.
  eapply Forall_impl; [exact Hrect|]. intros row Hrow. cbv beta.
  rewrite drop_0, take_ge by (rewrite Hrow; reflexivity). reflexivity.
Qed.

Lemma crop_grid_cell g (r c : nat) (x : A) :
  at2 g r c = Some x ->
  PIL.crop_grid (Z.of_nat c, Z.of_nat r, Z.of_nat c + 1, Z.of_nat r + 1) g
  = [[x]].
Proof.
  intros H. apply at2_Some in H as (row & Hr & Hc). unfold PIL.crop_grid.
  replace (Z.to_nat (Z.of_nat r + 1 - Z.of_nat r)) with 1%nat by lia.
  replace (Z.to_nat (Z.of_nat c + 1 - Z.of_nat c)) with 1%nat by lia.
  rewrite !Nat2Z.id, (take_1_drop _ _ _ Hr). simpl.
  rewrite (take_1_drop _ _ _ Hc). reflexivity.
Qed.

End crop_facts.

(** C3. An RGBA picture whose pixels all have alpha 0 is returned as it
    is: nothing is cropped, the size is unchanged, and for a rectangular
    picture that is the crop to the full bounds
    (left 0, upper 0, right = width, lower = height). *)
Theorem transparent_image_not_cropped (g : list (list (Z * Z * Z * Z))) :
  Forall (Forall (fun p => alpha p = 0)) g ->
  imagedit.cropped (PIL.ImgRGBA g) = Ok (PIL.ImgRGBA g) /\
  (rectangular g ->
   imagedit.cropped (PIL.ImgRGBA g)
   = Ok (PIL.crop (PIL.ImgRGBA g)
           (0, 0, Z.of_nat (np.width g), Z.of_nat (np.height g)))).
Proof.
  intros Hclear.
  assert (imagedit.cropped (PIL.ImgRGBA g) = Ok (PIL.ImgRGBA g)) as E.
  { unfold imagedit.cropped. simpl PIL.convert_RGBA.
    destruct (np.any (imagedit.mask g)) eqn:Hany; [|reflexivity].
    apply any_true in Hany as (r & c & Hrc). rewrite at2_mask in Hrc.
    destruct (at2 g r c) as [p|] eqn:Hp; [|discriminate].
    apply at2_Some in Hp as (row & Hr & Hc).
    pose proof (proj1 (Forall_lookup _ _) Hclear r row Hr) as Hrow.
    pose proof (proj1 (Forall_lookup _ _) Hrow c p Hc) as Ha.
    simpl in Hrc, Ha. rewrite Ha in Hrc. discriminate. }
  split; [exact E|]. intros Hrect. rewrite E. unfold PIL.crop.
  rewrite crop_grid_full by exact Hrect. reflexivity.
Qed.

(** C6. A rectangular RGBA picture with non-zero alpha at row [r0],
    column [c0] and alpha 0 everywhere else: the box handed to [crop] is
    left [c0], upper [r0], right [c0 + 1], lower [r0 + 1], and the result
    is the 1x1 picture of that pixel. *)
Theorem single_opaque_pixel_box
    (g : list (list (Z * Z * Z * Z))) (r0 c0 : nat) (p0 : Z * Z * Z * Z) :
  rectangular g ->
  at2 g r0 c0 = Some p0 ->
  (forall r c p, at2 g r c = Some p -> 0 <= alpha p) ->
  (forall r c p, at2 g r c = Some p -> (alpha p <> 0 <-> r = r0 /\ c = c0)) ->
  imagedit.crop_box (imagedit.mask g)
    = Ok (Z.of_nat c0, Z.of_nat r0, Z.of_nat c0 + 1, Z.of_nat r0 + 1) /\
  imagedit.cropped (PIL.ImgRGBA g) = Ok (PIL.ImgRGBA [[p0]]).
Proof.
  intros Hrect Hp0 Hbyte Hone.
  assert (forall r c, at2 (imagedit.mask g) r c = Some true <->
                      r = r0 /\ c = c0) as Hmask.
  { intros r c. rewrite at2_mask. split.
    - destruct (at2 g r c) as [p|] eqn:Hp; [|discriminate]. simpl.
      intros [= Hpos]. apply (Hone r c p Hp). apply Z.ltb_lt in Hpos. lia.
    - intros [-> ->]. rewrite Hp0. simpl. f_equal. apply Z.ltb_lt.
      pose proof (Hbyte r0 c0 p0 Hp0).
      pose proof (proj2 (Hone r0 c0 p0 Hp0) (conj eq_refl eq_refl)). lia. }
  assert (np.any (imagedit.mask g) = true) as Hany.
  { apply any_true. exists r0, c0. apply Hmask. auto. }
  destruct (crop_box_spec (imagedit.mask g)) as
    (ylo & yhi & xlo & xhi & Hbox & _ & _ & [c1 H1] & [c2 H2] & [r3 H3]
     & [r4 H4] & _); [apply rectangular_map2, Hrect | exact Hany |].
  apply Hmask in H1 as [-> _], H2 as [-> _], H3 as [_ ->], H4 as [_ ->].
  split; [exact Hbox|].
  unfold imagedit.cropped. simpl PIL.convert_RGBA. rewrite Hany, Hbox.
  unfold rbind, PIL.crop.
  rewrite (crop_grid_cell g r0 c0 p0 Hp0). reflexivity.
Qed.

Section conversion_facts.

Import imagedit.

Lemma rectangular_convert (img : PIL.image) :
  rectangular_image img -> rectangular (PIL.convert_RGBA img).
Proof.
  destruct img; simpl; try apply rectangular_map2. exact (fun H => H).
Qed.

Lemma at2_is_Some {A} (g : list (list A)) (r c : nat) :
  rectangular g -> (r < np.height g)%nat -> (c < np.width g)%nat ->
  is_Some (at2 g r c).
Proof.
  intros Hrect Hr Hc. apply lookup_lt_is_Some in Hr as [row Hrow].
  pose proof (proj1 (Forall_lookup _ _) Hrect r row Hrow) as Hlen.
  simpl in Hlen. rewrite <- Hlen in Hc.
  apply lookup_lt_is_Some in Hc as [x Hx]. exists x.
  apply at2_Some. eauto.
Qed.

(** A mask that is [True] throughout gives the full box. *)
Lemma crop_box_all_true (m : list (list bool)) :
  rectangular m -> np.any m = true ->
  (forall r c b, at2 m r c = Some b -> b = true) ->
  crop_box m
  = Ok (0, 0, Z.of_nat (np.width m), Z.of_nat (np.height m)).
Proof.
  intros Hrect Hany Hall.
  destruct (crop_box_spec m Hrect Hany) as
    (ylo & yhi & xlo & xhi & Hbox & Hy & Hx & _ & _ & _ & _ & Hin).
  destruct (at2_is_Some m O O Hrect) as [b0 H0]; [lia | lia |].
  destruct (at2_is_Some m (np.height m - 1) (np.width m - 1) Hrect)
    as [b1 H1]; [lia | lia |].
  rewrite (Hall _ _ _ H0) in H0. rewrite (Hall _ _ _ H1) in H1.
  apply Hin in H0, H1. rewrite Hbox. f_equal.
  f_equal; [f_equal; [f_equal|] |]; lia.
Qed.

(** [cropped] first replaces the picture by its RGBA conversion. *)
Lemma cropped_convert (img : PIL.image) :
  cropped img = cropped (PIL.ImgRGBA (PIL.convert_RGBA img)).
Proof. destruct img; reflexivity. Qed.

Lemma cropped_RGBA (g : list (list (Z * Z * Z * Z))) :
  cropped (PIL.ImgRGBA g)
  = if np.any (mask g)
    then box <- crop_box (mask g) ;; Ok (PIL.ImgRGBA (PIL.crop_grid box g))
    else Ok (PIL.ImgRGBA g).
Proof. reflexivity. Qed.


Lemma cropped_all_true (g : list (list (Z * Z * Z * Z))) :
  rectangular g ->
  (forall r c b, at2 (mask g) r c = Some b -> b = true) ->
  cropped (PIL.ImgRGBA g) = Ok (PIL.ImgRGBA g).
Proof.
  intros Hrect Hall. rewrite cropped_RGBA.
  destruct (np.any (mask g)) eqn:Hany; [|reflexivity].
  rewrite crop_box_all_true; [| apply rectangular_map2, Hrect | exact Hany
                              | exact Hall].
  unfold mask. rewrite width_map2, height_map2. unfold rbind.
  rewrite crop_grid_full by exact Hrect. reflexivity.
Qed.

End conversion_facts.



Section crop_grid_facts.

Context {A : Type}.
Implicit Types (g : list (list A)) (i j : nat).

Lemma at2_crop_grid g (x0 y0 x1 y1 : nat) i j :
  (i < y1 - y0)%nat -> (j < x1 - x0)%nat ->
  at2 (PIL.crop_grid (Z.of_nat x0, Z.of_nat y0, Z.of_nat x1, Z.of_nat y1) g)
      i j
  = at2 g (y0 + i) (x0 + j).
Proof.
  intros Hi Hj. unfold at2, PIL.crop_grid.
  replace (Z.to_nat (Z.of_nat y1 - Z.of_nat y0)) with (y1 - y0)%nat by lia.
  replace (Z.to_nat (Z.of_nat x1 - Z.of_nat x0)) with (x1 - x0)%nat by lia.
  rewrite !Nat2Z.id, list_lookup_fmap, lookup_take_lt, lookup_drop by lia.
  destruct (g !! (y0 + i)%nat) as [row|]; simpl; [|reflexivity].
  rewrite lookup_take_lt, lookup_drop by lia. reflexivity.
Qed.

Lemma same_length_rectangular g (n : nat) :
  Forall (fun row => length row = n) g ->
  rectangular g /\ (g <> [] -> np.width g = n).
Proof.
  intros H. unfold rectangular, np.width. destruct g as [|row g]; simpl.
  - split; [constructor | congruence].
  - inversion H as [|? ? Hrow Hg]; subst. split; [|reflexivity].
    constructor; [reflexivity|]. exact Hg.
Qed.

(** A crop inside a rectangular grid has the size of the box. *)
Lemma crop_grid_shape g (x0 y0 x1 y1 : nat) :
  rectangular g ->
  (y0 < y1 <= np.height g)%nat -> (x0 <= x1 <= np.width g)%nat ->
  let g' := PIL.crop_grid
              (Z.of_nat x0, Z.of_nat y0, Z.of_nat x1, Z.of_nat y1) g in
  rectangular g' /\ np.height g' = (y1 - y0)%nat /\
  np.width g' = (x1 - x0)%nat.
Proof.
  intros Hrect Hy Hx g'. unfold np.height in *.
  assert (length g' = (y1 - y0)%nat) as Hlen.
  { subst g'. unfold PIL.crop_grid.
    rewrite length_fmap, length_take, length_drop. lia. }
  assert (Forall (fun row => length row = (x1 - x0)%nat) g') as Hrows.
  { subst g'. unfold PIL.crop_grid. apply Forall_fmap.
    apply Forall_take, Forall_drop.
    eapply Forall_impl; [exact Hrect|]. intros row Hrow.
    cbv beta in Hrow |- *. unfold compose.
    rewrite length_take, length_drop. lia. }
  destruct (same_length_rectangular g' _ Hrows) as [Hr Hw].
  split; [exact Hr|]. split; [exact Hlen|]. apply Hw.
  intros E. rewrite E in Hlen. simpl in Hlen. lia.
Qed.

End crop_grid_facts.

Section idempotence_facts.

Import imagedit.

Lemma mask_crop_grid (g : list (list (Z * Z * Z * Z))) box :
  mask (PIL.crop_grid box g) = PIL.crop_grid box (mask g).
Proof.
  destruct box as [[[x0 y0] x1] y1]. unfold mask, np.map2, PIL.crop_grid.
  cbv beta iota.
  rewrite <- fmap_drop, <- fmap_take, <- !list_fmap_compose.
  apply list_fmap_ext. intros i row _. unfold compose. cbv beta.
  rewrite fmap_take, fmap_drop. reflexivity.
Qed.

(** Cropping to the box of the mask leaves a picture whose own box is
    the whole picture. *)
Lemma cropped_twice_RGBA (g : list (list (Z * Z * Z * Z))) :
  rectangular g ->
  exists g', cropped (PIL.ImgRGBA g) = Ok (PIL.ImgRGBA g') /\
             rectangular g' /\
             cropped (PIL.ImgRGBA g') = Ok (PIL.ImgRGBA g').
Proof.
  intros Hrect. rewrite cropped_RGBA.
  destruct (np.any (mask g)) eqn:Hany.
  2:{ exists g. split; [reflexivity|]. split; [exact Hrect|].
      rewrite cropped_RGBA, Hany. reflexivity. }
  pose proof (rectangular_map2 (fun '(_, _, _, a) => 0 <? a) g Hrect)
    as Hmrect. fold (mask g) in Hmrect.
  destruct (crop_box_spec (mask g) Hmrect Hany) as
    (ylo & yhi & xlo & xhi & Hbox & Hy & Hx & [c1 H1] & [c2 H2] & [r3 H3]
     & [r4 H4] & Hin).
  unfold mask in Hy, Hx. rewrite height_map2 in Hy. rewrite width_map2 in Hx.
  rewrite Hbox. unfold rbind.
  replace (Z.of_nat xhi + 1) with (Z.of_nat (S xhi)) in * by lia.
  replace (Z.of_nat yhi + 1) with (Z.of_nat (S yhi)) in * by lia.
  set (box := (Z.of_nat xlo, Z.of_nat ylo, Z.of_nat (S xhi),
               Z.of_nat (S yhi))) in *.
  set (g' := PIL.crop_grid box g).
  destruct (crop_grid_shape g xlo ylo (S xhi) (S yhi) Hrect)
    as (Hrect' & Hh' & Hw'); [lia | lia |].
  fold box in Hrect', Hh', Hw'. fold g' in Hrect', Hh', Hw'.
  exists g'. split; [reflexivity|]. split; [exact Hrect'|].
  (* every [True] of the mask lies in the box, so it shows in the crop *)
  assert (forall r c, at2 (mask g) r c = Some true ->
            at2 (mask g') (r - ylo) (c - xlo) = Some true) as Hmove.
  { intros r c Hrc. destruct (Hin r c Hrc) as [Hr Hc].
    unfold g'. rewrite mask_crop_grid. unfold box.
    rewrite at2_crop_grid by lia.
    replace (ylo + (r - ylo))%nat with r by lia.
    replace (xlo + (c - xlo))%nat with c by lia. exact Hrc. }
  pose proof (Hin _ _ H1) as [_ Hc1]. pose proof (Hin _ _ H2) as [_ Hc2].
  pose proof (Hin _ _ H3) as [Hr3 _]. pose proof (Hin _ _ H4) as [Hr4 _].
  apply Hmove in H1, H2, H3, H4.
  assert (np.any (mask g') = true) as Hany'
    by (apply any_true; eauto).
  pose proof (rectangular_map2 (fun '(_, _, _, a) => 0 <? a) g' Hrect')
    as Hmrect'. fold (mask g') in Hmrect'.
  destruct (crop_box_spec (mask g') Hmrect' Hany') as
    (ylo' & yhi' & xlo' & xhi' & Hbox' & Hy' & Hx' & _ & _ & _ & _ & Hin').
  unfold mask in Hy', Hx'. rewrite height_map2 in Hy'.
  rewrite width_map2 in Hx'.
  apply Hin' in H1, H2, H3, H4.
  rewrite cropped_RGBA, Hany', Hbox'. unfold rbind.
  replace (Z.of_nat xlo') with 0 by lia.
  replace (Z.of_nat ylo') with 0 by lia.
  replace (Z.of_nat xhi' + 1) with (Z.of_nat (np.width g')) by lia.
  replace (Z.of_nat yhi' + 1) with (Z.of_nat (np.height g')) by lia.
  rewrite crop_grid_full by exact Hrect'. reflexivity.
Qed.

Lemma cropped_twice (img : PIL.image) :
  rectangular_image img ->
  exists out, cropped img = Ok out /\ rectangular_image out /\
              cropped out = Ok out.
Proof.
  intros Hrect. rewrite cropped_convert.
  destruct (cropped_twice_RGBA _ (rectangular_convert img Hrect))
    as (g' & E1 & Hr & E2).
  exists (PIL.ImgRGBA g'). auto.
Qed.

End idempotence_facts.

Section no_padding_facts.

Import image_processor.

Lemma first_true_head (l : list bool) :
  head l = Some true -> np.first_true l = Some O.
Proof. destruct l as [|[|] l]; simpl; congruence. Qed.

Lemma box_of_masks_borders (rows cols : list bool) :
  head rows = Some true -> last rows = Some true ->
  head cols = Some true -> last cols = Some true ->
  box_of_masks rows cols
  = (0, Z.of_nat (length rows), 0, Z.of_nat (length cols)).
Proof.
  intros Hr1 Hr2 Hc1 Hc2. unfold box_of_masks.
  rewrite <- head_reverse in Hr2, Hc2.
  rewrite !first_true_head by assumption. simpl.
  rewrite !Z.sub_0_r. reflexivity.
Qed.

Lemma crop_boundaries_borders self a :
  borders_are_content self a ->
  crop_boundaries self a = Ok (0, (np.shape2 a).1, 0, (np.shape2 a).2).
Proof.
  intros (rt & ct & Hrt & Hct & Hr1 & Hr2 & Hc1 & Hc2).
  assert (row_vars a <> []) as Hr by (intros E; rewrite E in Hrt; discriminate).
  assert (col_vars a <> []) as Hc by (intros E; rewrite E in Hct; discriminate).
  destruct (compute_edge_boundaries_masks self a Hr Hc)
    as (mr & mc & Hmr & Hmc & Hbox).
  unfold var_threshold in Hrt, Hct. rewrite Hmr in Hrt. rewrite Hmc in Hct.
  simpl in Hrt, Hct. injection Hrt as <-. injection Hct as <-.
  rewrite box_of_masks_borders in Hbox by assumption.
  unfold content in Hbox. rewrite !length_fmap in Hbox.
  rewrite length_row_vars, length_col_vars in Hbox.
  unfold crop_boundaries. rewrite Hbox. simpl.
  pose proof (length_row_vars a). pose proof (length_col_vars a).
  destruct (np.shape2 a) as [height width]. simpl in *.
  rewrite validate_full by lia. reflexivity.
Qed.

Lemma crop_full_image (img : PIL.image) :
  rectangular_image img ->
  PIL.crop img (0, 0, (np.shape2 (PIL.np_array img)).2,
                (np.shape2 (PIL.np_array img)).1) = img.
Proof.
  destruct img as [g|g|g|g]; intros Hrect;
    unfold PIL.crop, PIL.np_array, np.shape2; cbn [fst snd];
    rewrite ?height_map2, ?width_map2, crop_grid_full by exact Hrect;
    reflexivity.
Qed.

Lemma cropped_img_borders self (img : PIL.image) :
  rectangular_image img ->
  borders_are_content self (PIL.np_array img) ->
  cropped_img self img = Ok img.
Proof.
  intros Hrect Hb. unfold cropped_img.
  rewrite (crop_boundaries_borders self _ Hb). simpl.
  rewrite crop_full_image by exact Hrect. reflexivity.
Qed.

End no_padding_facts.

(** C9, as the code has it. The alpha detector is idempotent: what it
    returns for a picture, it returns unchanged when run on that result.
    The variance detector leaves a picture unchanged when the picture's
    first and last row and first and last column are content by its own
    thresholds, which are taken from the maxima of the picture at hand;
    the detected box is then the full bounds. *)
Theorem detect_and_crop_fixed_points :
  (forall img : PIL.image,
     rectangular_image img ->
     exists out, imagedit.cropped img = Ok out /\
                 imagedit.cropped out = Ok out) /\
  (forall (self : image_processor.ImagePaddingRemover) (img : PIL.image),
     rectangular_image img ->
     borders_are_content self (PIL.np_array img) ->
     image_processor.crop_boundaries self (PIL.np_array img)
       = Ok (0, (np.shape2 (PIL.np_array img)).1,
             0, (np.shape2 (PIL.np_array img)).2) /\
     image_processor.cropped_img self img = Ok img).
Proof.
  split.
  - intros img Hrect. destruct (cropped_twice img Hrect) as (out & ? & _ & ?).
    eauto.
  - intros self img Hrect Hb. split.
    + apply crop_boundaries_borders, Hb.
    + apply cropped_img_borders; assumption.
Qed.

(** C9, as stated, fails for the variance detector: [framed_cropped] is
    the content box the detector cuts out of [framed], it has no uniform
    row or column, and the detector run on it again drops its first row
    (box rows 1 to 2 instead of the full 0 to 2). *)
Lemma variance_crop_shrinks_again :
  image_processor.cropped_img image_processor.with_defaults Examples.framed
    = Ok Examples.framed_cropped /\
  image_processor.crop_boundaries image_processor.with_defaults
    (PIL.np_array Examples.framed_cropped) = Ok (1, 2, 0, 2) /\
  np.shape2 (PIL.np_array Examples.framed_cropped) = (2, 2) /\
  image_processor.cropped_img image_processor.with_defaults
    Examples.framed_cropped = Ok (PIL.ImgL [[0; 90]]) /\
  PIL.ImgL [[0; 90]] <> Examples.framed_cropped.
Proof.
  split; [vm_compute; reflexivity|]. split; [vm_compute; reflexivity|].
  split; [reflexivity|]. split; [vm_compute; reflexivity|]. discriminate.
Qed.

(** * The batch drivers *)

Section main_facts.

Import imagedit.




End main_facts.

Section main_loop.

Import imagedit.

(** The world [main] starts in and the names it is given. *)
Variable w0 : world.
Variable batch : list string.

(** Every file of the batch that is there holds a picture. *)
Hypothesis present_decodes :
  forall f d, In f batch -> files w0 !! input_path f = Some d ->
              exists img, d = Picture img /\ rectangular_image img.

(** No output of the batch is written over an input of the batch. *)
Hypothesis outputs_apart :
  forall f g, In f batch -> In g batch -> output_path f <> input_path g.



End main_loop.



(** * The theorems at concrete inputs *)

Lemma edge_boundaries_never_degenerate_witness :
  np.shape2 Examples.gradient = (2, 3) /\ 0 < 2 /\ 0 < 3 /\
  exists top bottom lft rgt,
    image_processor._compute_edge_boundaries image_processor.with_defaults
      Examples.gradient = Ok (top, bottom, lft, rgt) /\
    0 <= top < bottom /\ bottom <= 2 /\ 0 <= lft < rgt /\ rgt <= 3.
Proof.
  split; [reflexivity|]. split; [lia|]. split; [lia|].
  apply (edge_boundaries_never_degenerate image_processor.with_defaults
           Examples.gradient 2 3); [reflexivity | lia | lia].
Defined.

Lemma empty_array_raises_witness :
  ((np.shape2 (np.Arr2 [[]; []])).1 = 0 \/
   (np.shape2 (np.Arr2 [[]; []])).2 = 0) /\
  exists msg,
    image_processor._compute_edge_boundaries image_processor.with_defaults
      (np.Arr2 [[]; []]) = Raise (ValueError msg) /\
    image_processor.crop_boundaries image_processor.with_defaults
      (np.Arr2 [[]; []]) = Raise (ValueError msg).
Proof.
  split; [right; reflexivity|].
  apply (empty_array_raises image_processor.with_defaults (np.Arr2 [[]; []])).
  right. reflexivity.
Defined.

Lemma uniform_image_top_zero_witness :
  (0 < 2)%nat /\ (0 < 3)%nat /\
  image_processor._compute_edge_boundaries image_processor.with_defaults
    (np.Arr3 (replicate 2 (replicate 3 [200; 10; 10])))
    = Ok (0, Z.of_nat 2, 0, Z.of_nat 3) /\
  image_processor.crop_boundaries image_processor.with_defaults
    (np.Arr3 (replicate 2 (replicate 3 [200; 10; 10])))
    = Ok (0, Z.of_nat 2, 0, Z.of_nat 3).
Proof.
  split; [lia|]. split; [lia|].
  apply (uniform_image_top_zero image_processor.with_defaults _ 2 3);
    [lia | lia |].
  right. exists [200; 10; 10]. reflexivity.
Defined.

Lemma higher_threshold_more_permissive_witness :
  (image_processor.threshold Examples.example_run
   <= image_processor.threshold image_processor.with_defaults)%Q /\
  image_processor.row_vars Examples.gradient <> [] /\
  exists m thr1 thr2,
    np.max (image_processor.row_vars Examples.gradient) = Ok m /\
    In m (image_processor.row_vars Examples.gradient) /\
    Forall (fun v => (v <= m)%Q) (image_processor.row_vars Examples.gradient) /\
    thr1 = (m * (1 - image_processor.threshold Examples.example_run))%Q /\
    thr2 = (m * (1 - image_processor.threshold
                       image_processor.with_defaults))%Q /\
    image_processor.var_threshold Examples.example_run
      (image_processor.row_vars Examples.gradient) = Ok thr1 /\
    image_processor.var_threshold image_processor.with_defaults
      (image_processor.row_vars Examples.gradient) = Ok thr2 /\
    (thr2 <= thr1)%Q /\
    forall i : nat,
      image_processor.content (image_processor.row_vars Examples.gradient)
        thr1 !! i = Some true ->
      image_processor.content (image_processor.row_vars Examples.gradient)
        thr2 !! i = Some true.
Proof.
  assert (image_processor.threshold Examples.example_run
          <= image_processor.threshold image_processor.with_defaults)%Q as Ht
    by (unfold Qle; simpl; lia).
  assert (image_processor.row_vars Examples.gradient <> []) as Hne
    by (vm_compute; discriminate).
  split; [exact Ht|]. split; [exact Hne|].
  apply (higher_threshold_more_permissive Examples.example_run
           image_processor.with_defaults Examples.gradient _ Ht);
    [left; reflexivity | exact Hne].
Defined.

Lemma small_box_expanded_by_margin_witness :
  0 < 100 /\
  (inject_Z (45 - 40) / inject_Z 100
   < image_processor.min_content_ratio image_processor.with_defaults)%Q /\
  image_processor.validate image_processor.with_defaults 100 100
    (40, 45, 50, 55) = (35, 50, 45, 60).
Proof.
  assert (inject_Z (45 - 40) / inject_Z 100
          < image_processor.min_content_ratio
              image_processor.with_defaults)%Q as Hsmall
    by (unfold Qlt; simpl; lia).
  split; [lia|]. split; [exact Hsmall|].
  destruct (proj1 small_box_expanded_by_margin image_processor.with_defaults
              100 100 40 45 50 55 ltac:(lia) ltac:(lia) (or_introl Hsmall))
    as [E _].
  exact E.
Defined.

Lemma transparent_image_not_cropped_witness :
  Forall (Forall (fun p => alpha p = 0)) Examples.clear_grid /\
  imagedit.cropped (PIL.ImgRGBA Examples.clear_grid)
    = Ok (PIL.ImgRGBA Examples.clear_grid).
Proof.
  assert (Forall (Forall (fun p => alpha p = 0)) Examples.clear_grid) as H
    by (repeat constructor).
  split; [exact H|].
  exact (proj1 (transparent_image_not_cropped Examples.clear_grid H)).
Defined.

Lemma single_opaque_pixel_box_witness :
  rectangular Examples.corner_dot /\
  at2 Examples.corner_dot 1 1 = Some (7, 8, 9, 200) /\
  imagedit.crop_box (imagedit.mask Examples.corner_dot)
    = Ok (Z.of_nat 1, Z.of_nat 1, Z.of_nat 1 + 1, Z.of_nat 1 + 1) /\
  imagedit.cropped (PIL.ImgRGBA Examples.corner_dot)
    = Ok (PIL.ImgRGBA [[(7, 8, 9, 200)]]).
Proof.
  assert (rectangular Examples.corner_dot) as Hrect by (repeat constructor).
  split; [exact Hrect|]. split; [reflexivity|].
  apply (single_opaque_pixel_box Examples.corner_dot 1 1 (7, 8, 9, 200) Hrect);
    [reflexivity | |].
  - intros [|[|r]] [|[|c]] p H; vm_compute in H; try discriminate H;
      injection H as <-; vm_compute; discriminate.
  - intros [|[|r]] [|[|c]] p H; vm_compute in H; try discriminate H;
      injection H as <-; unfold alpha; simpl; split;
      try (intros [? ?]; discriminate); try (intros ?; lia);
      try (intros _; split; reflexivity); try (intros _; lia).
Defined.


Lemma detect_and_crop_fixed_points_witness :
  (rectangular_image Examples.logo /\
   exists out, imagedit.cropped Examples.logo = Ok out /\
               imagedit.cropped out = Ok out) /\
  (rectangular_image Examples.chequer /\
   borders_are_content image_processor.with_defaults
     (PIL.np_array Examples.chequer) /\
   image_processor.cropped_img image_processor.with_defaults Examples.chequer
     = Ok Examples.chequer).
Proof.
  assert (rectangular_image Examples.logo) as H1 by (repeat constructor).
  assert (rectangular_image Examples.chequer) as H2 by (repeat constructor).
  assert (borders_are_content image_processor.with_defaults
            (PIL.np_array Examples.chequer)) as H3.
  { eexists _, _. split; [vm_compute; reflexivity|].
    split; [vm_compute; reflexivity|]. vm_compute. repeat split. }
  split.
  - split; [exact H1|].
    exact (proj1 detect_and_crop_fixed_points Examples.logo H1).
  - split; [exact H2|]. split; [exact H3|].
    exact (proj2 (proj2 detect_and_crop_fixed_points
                    image_processor.with_defaults Examples.chequer H2 H3)).
Defined.


(** * Further properties of the variance detector *)

Section content_in_box.

Implicit Types (l : list bool) (i : nat).

(** Every [True] of a mask lies between the two [argmax] bounds, and
    the bounds themselves are [True] entries. *)
Lemma true_between_bounds l i :
  l !! i = Some true ->
  let lo := default O (np.first_true l) in
  let k := default O (np.first_true (reverse l)) in
  (lo <= i < length l - k)%nat /\
  l !! lo = Some true /\ l !! (length l - S k)%nat = Some true.
Proof.
  intros Hi lo k.
  assert (i < length l)%nat as Hil by (apply lookup_lt_is_Some; eauto).
  destruct (first_true_le l i Hi) as (lo' & Hlo & Hloi).
  destruct (first_true_Some l lo' Hlo) as [Hlo1 _].
  assert (reverse l !! (length l - S i)%nat = Some true) as Hri.
  { rewrite reverse_lookup by lia.
    replace (length l - S (length l - S i))%nat with i by lia. exact Hi. }
  destruct (first_true_le _ _ Hri) as (k' & Hk & Hki).
  destruct (first_true_Some _ k' Hk) as [Hk1 _].
  subst lo k. rewrite Hlo, Hk. simpl.
  rewrite reverse_lookup in Hk1 by lia.
  split; [lia|]. split; assumption.
Qed.

End content_in_box.

(** X1. For an array with at least one row and one column, no row and
    no column that is above its threshold is cut off: each lies inside
    the box of [_compute_edge_boundaries]; and when some row (column) is
    above the threshold, the first and the last row (column) of the box
    are such rows (columns), so the box is the tightest one. *)
Theorem detected_box_holds_all_content
    (self : image_processor.ImagePaddingRemover) (a : np.ndarray)
    (height width : Z) :
  np.shape2 a = (height, width) -> 0 < height -> 0 < width ->
  exists row_threshold col_threshold top bottom lft rgt,
    image_processor.var_threshold self (image_processor.row_vars a)
      = Ok row_threshold /\
    image_processor.var_threshold self (image_processor.col_vars a)
      = Ok col_threshold /\
    image_processor._compute_edge_boundaries self a
      = Ok (top, bottom, lft, rgt) /\
    let rows :=
      image_processor.content (image_processor.row_vars a) row_threshold in
    let cols :=
      image_processor.content (image_processor.col_vars a) col_threshold in
    (forall i : nat, rows !! i = Some true ->
       top <= Z.of_nat i < bottom /\
       rows !! Z.to_nat top = Some true /\
       rows !! Z.to_nat (bottom - 1) = Some true) /\
    (forall j : nat, cols !! j = Some true ->
       lft <= Z.of_nat j < rgt /\
       cols !! Z.to_nat lft = Some true /\
       cols !! Z.to_nat (rgt - 1) = Some true).
Proof.
  intros Hshape Hh Hw.
  pose proof (length_row_vars a) as Lr. pose proof (length_col_vars a) as Lc.
  rewrite Hshape in Lr, Lc. simpl in Lr, Lc.
  assert (image_processor.row_vars a <> []) as Hr
    by (intros E; rewrite E in Lr; simpl in Lr; lia).
  assert (image_processor.col_vars a <> []) as Hc
    by (intros E; rewrite E in Lc; simpl in Lc; lia).
  destruct (compute_edge_boundaries_masks self a Hr Hc)
    as (mr & mc & Hmr & Hmc & Hbox).
  eexists _, _, _, _, _, _.
  split; [unfold image_processor.var_threshold; rewrite Hmr; reflexivity|].
  split; [unfold image_processor.var_threshold; rewrite Hmc; reflexivity|].
  split; [exact Hbox|]. cbv zeta. split.
  - intros i Hi. destruct (true_between_bounds _ i Hi) as (Hb & Hlo & Hhi).
    assert (i < length (image_processor.content (image_processor.row_vars a)
                          (mr * (1 - image_processor.threshold self))%Q))%nat
      as Hil by (apply lookup_lt_is_Some; eauto).
    split; [lia|]. split.
    + rewrite Nat2Z.id. exact Hlo.
    + match goal with |- _ !! ?n = _ =>
        replace n with
          (length (image_processor.content (image_processor.row_vars a)
                     (mr * (1 - image_processor.threshold self))%Q)
           - S (default O (np.first_true (reverse
               (image_processor.content (image_processor.row_vars a)
                  (mr * (1 - image_processor.threshold self))%Q)))))%nat
          by lia end.
      exact Hhi.
  - intros j Hj. destruct (true_between_bounds _ j Hj) as (Hb & Hlo & Hhi).
    assert (j < length (image_processor.content (image_processor.col_vars a)
                          (mc * (1 - image_processor.threshold self))%Q))%nat
      as Hjl by (apply lookup_lt_is_Some; eauto).
    split; [lia|]. split.
    + rewrite Nat2Z.id. exact Hlo.
    + match goal with |- _ !! ?n = _ =>
        replace n with
          (length (image_processor.content (image_processor.col_vars a)
                     (mc * (1 - image_processor.threshold self))%Q)
           - S (default O (np.first_true (reverse
               (image_processor.content (image_processor.col_vars a)
                  (mc * (1 - image_processor.threshold self))%Q)))))%nat
          by lia end.
      exact Hhi.
Qed.

Section variance_crop_facts.

Import image_processor.

Lemma shape2_np_array (img : PIL.image) :
  np.shape2 (PIL.np_array img)
  = (Z.of_nat (PIL.size img).2, Z.of_nat (PIL.size img).1).
Proof.
  destruct img; simpl; rewrite ?height_map2, ?width_map2; reflexivity.
Qed.

(** On an array with rows and columns, the validated box is proper and
    inside the array. *)
Lemma crop_boundaries_inside self a (height width : Z) :
  np.shape2 a = (height, width) -> 0 < height -> 0 < width ->
  exists top bottom lft rgt,
    crop_boundaries self a = Ok (top, bottom, lft, rgt) /\
    0 <= top < bottom /\ bottom <= height /\
    0 <= lft < rgt /\ rgt <= width.
Proof.
  intros Hshape Hh Hw.
  pose proof (length_row_vars a) as Lr. pose proof (length_col_vars a) as Lc.
  rewrite Hshape in Lr, Lc. simpl in Lr, Lc.
  assert (row_vars a <> []) as Hr
    by (intros E; rewrite E in Lr; simpl in Lr; lia).
  assert (col_vars a <> []) as Hc
    by (intros E; rewrite E in Lc; simpl in Lc; lia).
  destruct (compute_edge_boundaries_masks self a Hr Hc)
    as (mr & mc & _ & _ & Hbox).
  set (rows := content _ _) in Hbox. set (cols := content _ _) in Hbox.
  pose proof (box_of_masks_proper rows cols) as Hp.
  assert (length rows = length (row_vars a)) as Er by apply length_fmap.
  assert (length cols = length (col_vars a)) as Ec by apply length_fmap.
  destruct (box_of_masks rows cols) as [[[top bottom] lft] rgt].
  destruct Hp as (? & ? & ? & ?);
    [subst rows; apply content_nonempty, Hr
    | subst cols; apply content_nonempty, Hc |].
  unfold crop_boundaries. rewrite Hbox, Hshape. simpl.
  pose proof (validate_inside self height width top bottom lft rgt) as Hv.
  destruct (validate self height width (top, bottom, lft, rgt))
    as [[[top' bottom'] lft'] rgt'].
  exists top', bottom', lft', rgt'. split; [reflexivity|].
  apply Hv; lia.
Qed.

Lemma crop_grid_shape_Z {A} (g : list (list A)) (x0 y0 x1 y1 : Z) :
  rectangular g ->
  0 <= y0 < y1 -> y1 <= Z.of_nat (np.height g) ->
  0 <= x0 < x1 -> x1 <= Z.of_nat (np.width g) ->
  rectangular (PIL.crop_grid (x0, y0, x1, y1) g) /\
  grid_size (PIL.crop_grid (x0, y0, x1, y1) g)
  = (Z.to_nat (x1 - x0), Z.to_nat (y1 - y0)).
Proof.
  intros Hrect Hy0 Hy1 Hx0 Hx1.
  destruct (crop_grid_shape g (Z.to_nat x0) (Z.to_nat y0) (Z.to_nat x1)
              (Z.to_nat y1) Hrect) as (Hr & Hh & Hw); [lia | lia |].
  rewrite !Z2Nat.id in Hr, Hh, Hw by lia.
  split; [exact Hr|]. unfold grid_size. rewrite Hh, Hw. f_equal; lia.
Qed.

End variance_crop_facts.

(** X2. The validation step of [remove_padding] never shrinks a box: for
    a proper box inside the picture, the box that is cropped contains
    the detected one and is itself inside the picture. *)
Theorem validate_never_shrinks
    (self : image_processor.ImagePaddingRemover)
    (height width top bottom lft rgt : Z) :
  0 <= top < bottom -> bottom <= height ->
  0 <= lft < rgt -> rgt <= width ->
  exists top' bottom' lft' rgt',
    image_processor.validate self height width (top, bottom, lft, rgt)
      = (top', bottom', lft', rgt') /\
    0 <= top' <= top /\ bottom <= bottom' <= height /\
    0 <= lft' <= lft /\ rgt <= rgt' <= width.
Proof.
  intros Ht Hb Hl Hr. unfold image_processor.validate.
  destruct (image_processor.too_aggressive _ _ _ _).
  - unfold image_processor.preserve.
    pose proof (margin_nonneg height width ltac:(lia) ltac:(lia)).
    eexists _, _, _, _. split; [reflexivity|]. lia.
  - exists top, bottom, lft, rgt. split; [reflexivity|]. lia.
Qed.

(** X3. On a rectangular picture with at least one row and one column,
    detection, validation and cropping never fail and never give an empty
    picture: the box is proper and inside the picture, and the result is
    a rectangular picture of exactly the size of the box. *)
Theorem variance_crop_never_empty
    (self : image_processor.ImagePaddingRemover) (img : PIL.image)
    (w h : nat) :
  rectangular_image img -> PIL.size img = (w, h) ->
  (0 < w)%nat -> (0 < h)%nat ->
  exists top bottom lft rgt out,
    image_processor.crop_boundaries self (PIL.np_array img)
      = Ok (top, bottom, lft, rgt) /\
    0 <= top < bottom /\ bottom <= Z.of_nat h /\
    0 <= lft < rgt /\ rgt <= Z.of_nat w /\
    image_processor.cropped_img self img = Ok out /\
    rectangular_image out /\
    PIL.size out = (Z.to_nat (rgt - lft), Z.to_nat (bottom - top)).
Proof.
  intros Hrect Hsize Hw Hh.
  pose proof (shape2_np_array img) as Hshape. rewrite Hsize in Hshape.
  simpl in Hshape.
  destruct (crop_boundaries_inside self _ _ _ Hshape)
    as (top & bottom & lft & rgt & Hbox & Ht & Hb & Hl & Hr); [lia | lia |].
  exists top, bottom, lft, rgt.
  eexists. split; [exact Hbox|].
  split; [exact Ht|]. split; [exact Hb|]. split; [exact Hl|].
  split; [exact Hr|].
  unfold image_processor.cropped_img. rewrite Hbox. simpl rbind.
  split; [reflexivity|].
  destruct img as [g|g|g|g]; simpl in Hrect, Hsize; injection Hsize as Ew Eh;
    unfold PIL.crop; cbn [rectangular_image PIL.size];
    (destruct (crop_grid_shape_Z g lft top rgt bottom Hrect) as [Hr' Hs'];
     [lia | lia | lia | lia |]);
    (split; [exact Hr' | exact Hs']).
Qed.

(** * Further properties of [image_processor.remove_padding] and
      [process_batch] *)

Section variance_effects.

Import image_processor.

Lemma vremove_padding_missing self (image_path : string)
    (output_path : option string) (w : world) :
  files w !! image_path = None ->
  remove_padding self image_path output_path w
  = (Raise (FileNotFoundError
              ("[Errno 2] No such file or directory: '"
                 +:+ image_path +:+ "'")),
     World (files w)
           (log w ++ [(INFO, "Processing image: " +:+ image_path)])).
Proof.
  intros Hnone. unfold remove_padding, Sys.bind, logger, Image_open.
  cbn [files log]. rewrite Hnone. reflexivity.
Qed.



(** A run on a file that holds a picture the detector accepts. *)
Lemma vremove_padding_ok self (image_path p : string) (w : world)
    (img out : PIL.image) :
  files w !! image_path = Some (Picture img) ->
  cropped_img self img = Ok out ->
  p <> "" ->
  exists records,
    remove_padding self image_path (Some p) w
    = (Ok out, World (<[p := Picture out]> (files w)) (log w ++ records)).
Proof.
  intros Hfile Hout Hp. unfold cropped_img, crop_boundaries in Hout.
  unfold remove_padding, Sys.bind, logger, Image_open, lift, save, Sys.ret.
  cbn [files log]. rewrite Hfile.
  destruct (_compute_edge_boundaries self (PIL.np_array img))
    as [box|e]; [|discriminate]. simpl rbind in Hout.
  destruct (np.shape2 (PIL.np_array img)) as [height width].
  simpl rbind in Hout.
  rewrite (bool_decide_eq_false_2 _ Hp).
  destruct (too_aggressive self height width box);
    destruct (validate self height width box) as [[[top bottom] lft] rgt];
    injection Hout as <-; cbn [fst snd files log];
    rewrite <- ?app_assoc; eexists; reflexivity.
Qed.

Lemma process_batch_from_app self (l1 l2 : list string) (idx : nat)
    (output_dir : string) (w w1 : world) :
  process_batch_from self idx l1 output_dir w = (Ok tt, w1) ->
  process_batch_from self idx (l1 ++ l2) output_dir w
  = process_batch_from self (idx + length l1) l2 output_dir w1.
Proof.
  revert idx w. induction l1 as [|p l1 IH]; intros idx w Hrun; simpl in *.
  - injection Hrun as ->. rewrite Nat.add_0_r. reflexivity.
  - unfold Sys.bind in *.
    destruct (remove_padding self p _ w) as [[out|e] w2]; [|discriminate].
    rewrite (IH (S idx) w2 Hrun). f_equal. lia.
Qed.

End variance_effects.

Section variance_batch_facts.

Import image_processor.

Lemma cropped_img_ok self (img : PIL.image) (w h : nat) :
  PIL.size img = (w, h) -> (0 < w)%nat -> (0 < h)%nat ->
  exists out, cropped_img self img = Ok out.
Proof.
  intros Hsize Hw Hh.
  pose proof (shape2_np_array img) as Hshape. rewrite Hsize in Hshape.
  simpl in Hshape.
  destruct (crop_boundaries_inside self _ _ _ Hshape)
    as (top & bottom & lft & rgt & Hbox & _); [lia | lia |].
  unfold cropped_img. rewrite Hbox. simpl. eauto.
Qed.

Lemma string_app_length (s t : string) :
  String.length (s +:+ t) = (String.length s + String.length t)%nat.
Proof. induction s as [|c s IH]; simpl; [reflexivity | rewrite IH; reflexivity]. Qed.

Lemma string_app_inj_r (s1 s2 t : string) :
  s1 +:+ t = s2 +:+ t -> s1 = s2.
Proof.
  revert s2. induction s1 as [|c s1 IH]; intros [|d s2] H; simpl in H.
  - reflexivity.
  - apply (f_equal String.length) in H.
    rewrite !string_app_length in H. cbn [String.length] in H. lia.
  - apply (f_equal String.length) in H.
    rewrite !string_app_length in H. cbn [String.length] in H. lia.
  - injection H as -> H. f_equal. apply IH, H.
Qed.

(** Different indices give different output paths. *)
Lemma batch_output_inj (output_dir : string) (i j : nat) :
  batch_output output_dir i = batch_output output_dir j -> i = j.
Proof.
  unfold batch_output. intros H.
  apply (inj (String.app output_dir)) in H.
  apply (inj (String.app "/processed_")) in H.
  apply string_app_inj_r in H. apply (inj pretty) in H. exact H.
Qed.

Lemma process_batch_from_spec self (output_dir : string)
    (rest : list string) (idx : nat) (w : world) :
  (forall i p, rest !! i = Some p ->
     exists img wd ht, files w !! p = Some (Picture img) /\
       PIL.size img = (wd, ht) /\ (0 < wd)%nat /\ (0 < ht)%nat) ->
  (forall i p j, rest !! i = Some p -> batch_output output_dir j <> p) ->
  exists w',
    process_batch_from self idx rest output_dir w = (Ok tt, w') /\
    (forall i p img, rest !! i = Some p ->
       files w !! p = Some (Picture img) ->
       exists out, cropped_img self img = Ok out /\
         files w' !! batch_output output_dir (idx + i)
         = Some (Picture out)) /\
    (forall q, (forall j, q <> batch_output output_dir (idx + j)) ->
               files w' !! q = files w !! q).
Proof.
  revert idx w. induction rest as [|p rest IH]; intros idx w Hpics Hapart.
  - exists w. split; [reflexivity|]. split; [|reflexivity].
    intros i p img Hi. rewrite lookup_nil in Hi. discriminate.
  - destruct (Hpics O p eq_refl) as (img & wd & ht & Hfile & Hsize & Hwd & Hht).
    destruct (cropped_img_ok self img wd ht Hsize Hwd Hht) as [out Hout].
    assert (batch_output output_dir idx <> "") as Hne.
    { unfold batch_output. intros E. apply (f_equal String.length) in E.
      rewrite !string_app_length in E. cbn [String.length] in E. lia. }
    destruct (vremove_padding_ok self p _ w img out Hfile Hout Hne)
      as [records Hrun].
    set (w1 := World _ _) in Hrun.
    assert (forall q, q <> batch_output output_dir idx ->
                      files w1 !! q = files w !! q) as Hw1.
    { intros q Hq. unfold w1. cbn [files].
      apply lookup_insert_ne. congruence. }
    destruct (IH (S idx) w1) as (w' & Hrest & Hdone & Hframe).
    { intros i p' Hi. rewrite Hw1.
      - apply (Hpics (S i) p' Hi).
      - intros E. apply (Hapart (S i) p' idx Hi). congruence. }
    { intros i p' j Hi. apply (Hapart (S i) p' j Hi). }
    exists w'. split.
    { cbn [process_batch_from]. fold (batch_output output_dir idx).
      unfold Sys.bind. rewrite Hrun. exact Hrest. }
    split.
    + intros [|i] p' img' Hi Hfile'.
      * simpl in Hi. injection Hi as <-. rewrite Hfile in Hfile'.
        injection Hfile' as <-. exists out. split; [exact Hout|].
        rewrite Nat.add_0_r, Hframe.
        -- unfold w1. cbn [files]. apply lookup_insert_eq.
        -- intros j E. apply batch_output_inj in E. lia.
      * simpl in Hi.
        assert (files w1 !! p' = Some (Picture img')) as Hfile1.
        { rewrite Hw1; [exact Hfile'|].
          intros E. apply (Hapart (S i) p' idx Hi). congruence. }
        destruct (Hdone i p' img' Hi Hfile1) as (o & Ho & Hlook).
        exists o. split; [exact Ho|].
        replace (idx + S i)%nat with (S idx + i)%nat by lia. exact Hlook.
    + intros q Hq. rewrite Hframe, Hw1.
      * reflexivity.
      * specialize (Hq O). rewrite Nat.add_0_r in Hq. exact Hq.
      * intros j. specialize (Hq (S j)).
        replace (idx + S j)%nat with (S idx + j)%nat in Hq by lia. exact Hq.
Qed.

End variance_batch_facts.



(** X6. [process_batch] stops at the first source that cannot be opened:
    if the paths before it are processed and the next path is missing,
    the batch raises [FileNotFoundError] for it, whatever paths follow;
    the world is the one the earlier paths left, with one log record
    more, so nothing after the missing path is read or written. *)
Theorem process_batch_stops_at_missing_source
    (self : image_processor.ImagePaddingRemover)
    (done_paths later_paths : list string) (missing output_dir : string)
    (w w1 : world) :
  image_processor.process_batch self done_paths output_dir w = (Ok tt, w1) ->
  files w1 !! missing = None ->
  image_processor.process_batch self
    (done_paths ++ missing :: later_paths) output_dir w
  = (Raise (FileNotFoundError
              ("[Errno 2] No such file or directory: '" +:+ missing +:+ "'")),
     World (files w1)
           (log w1 ++ [(INFO, "Processing image: " +:+ missing)])).
Proof.
  intros Hdone Hmissing. unfold image_processor.process_batch in *.
  rewrite (process_batch_from_app self _ _ _ _ _ _ Hdone).
  cbn [image_processor.process_batch_from]. unfold Sys.bind.
  rewrite (vremove_padding_missing self _ _ _ Hmissing). reflexivity.
Qed.

(** X7. When every source of the batch holds a rectangular picture with
    at least one row and one column and no output name
    [<output_dir>/processed_<j>.png] is one of the sources,
    [process_batch] ends normally; the picture cropped from the source
    of index [i] is at [<output_dir>/processed_<i>.png], and every path
    that is not such an output name holds what it held. *)
Theorem process_batch_writes_each_index
    (self : image_processor.ImagePaddingRemover)
    (image_paths : list string) (output_dir : string) (w : world) :
  (forall i p, image_paths !! i = Some p ->
     exists img wd ht, files w !! p = Some (Picture img) /\
       PIL.size img = (wd, ht) /\ (0 < wd)%nat /\ (0 < ht)%nat) ->
  (forall i p j, image_paths !! i = Some p ->
     batch_output output_dir j <> p) ->
  exists w',
    image_processor.process_batch self image_paths output_dir w
      = (Ok tt, w') /\
    (forall i p img, image_paths !! i = Some p ->
       files w !! p = Some (Picture img) ->
       exists out, image_processor.cropped_img self img = Ok out /\
         files w' !! batch_output output_dir i = Some (Picture out)) /\
    (forall q, (forall j, q <> batch_output output_dir j) ->
               files w' !! q = files w !! q).
Proof.
  intros Hpics Hapart.
  destruct (process_batch_from_spec self output_dir image_paths O w
              Hpics Hapart) as (w' & Hrun & Hdone & Hframe).
  exists w'. split; [exact Hrun|]. split.
  - intros i p img Hi Hfile. exact (Hdone i p img Hi Hfile).
  - intros q Hq. apply Hframe. intros j. exact (Hq j).
Qed.

(** * Further properties of the alpha detector *)

Section alpha_crop_facts.

Import imagedit.
Implicit Types (g : list (list (Z * Z * Z * Z))).

Lemma mask_true g (r c : nat) :
  at2 (mask g) r c = Some true <->
  exists p, at2 g r c = Some p /\ 0 < alpha p.
Proof.
  rewrite at2_mask. split.
  - destruct (at2 g r c) as [p|]; simpl; [|discriminate].
    intros [= H]. exists p. split; [reflexivity | apply Z.ltb_lt, H].
  - intros (p & -> & Hp). simpl. f_equal. apply Z.ltb_lt, Hp.
Qed.

(** The crop of a rectangular RGBA grid with a visible pixel. *)
Lemma alpha_crop_spec g :
  rectangular g ->
  (exists r c p, at2 g r c = Some p /\ 0 < alpha p) ->
  exists (xlo ylo xhi yhi : nat) g',
    crop_box (mask g)
      = Ok (Z.of_nat xlo, Z.of_nat ylo, Z.of_nat xhi + 1, Z.of_nat yhi + 1)
    /\ cropped (PIL.ImgRGBA g) = Ok (PIL.ImgRGBA g')
    /\ rectangular g'
    /\ (ylo <= yhi < np.height g)%nat /\ (xlo <= xhi < np.width g)%nat
    /\ grid_size g' = (S xhi - xlo, S yhi - ylo)%nat
    /\ (forall i j, (i <= yhi - ylo)%nat -> (j <= xhi - xlo)%nat ->
          at2 g' i j = at2 g (ylo + i) (xlo + j))
    /\ (forall r c p, at2 g r c = Some p -> 0 < alpha p ->
          (ylo <= r <= yhi)%nat /\ (xlo <= c <= xhi)%nat)
    /\ (exists c p, at2 g ylo c = Some p /\ 0 < alpha p)
    /\ (exists c p, at2 g yhi c = Some p /\ 0 < alpha p)
    /\ (exists r p, at2 g r xlo = Some p /\ 0 < alpha p)
    /\ (exists r p, at2 g r xhi = Some p /\ 0 < alpha p).
Proof.
  intros Hrect (r0 & c0 & p0 & H0 & Hp0).
  assert (np.any (mask g) = true) as Hany.
  { apply any_true. exists r0, c0. apply mask_true. eauto. }
  pose proof (rectangular_map2 (fun '(_, _, _, a) => 0 <? a) g Hrect)
    as Hmrect. fold (mask g) in Hmrect.
  destruct (crop_box_spec (mask g) Hmrect Hany) as
    (ylo & yhi & xlo & xhi & Hbox & Hy & Hx & [c1 H1] & [c2 H2] & [r3 H3]
     & [r4 H4] & Hin).
  unfold mask in Hy, Hx. rewrite height_map2 in Hy. rewrite width_map2 in Hx.
  exists xlo, ylo, xhi, yhi.
  exists (PIL.crop_grid (Z.of_nat xlo, Z.of_nat ylo, Z.of_nat (S xhi),
                         Z.of_nat (S yhi)) g).
  destruct (crop_grid_shape g xlo ylo (S xhi) (S yhi) Hrect)
    as (Hrect' & Hh' & Hw'); [lia | lia |].
  split; [exact Hbox|]. split.
  { rewrite cropped_RGBA, Hany, Hbox. unfold rbind.
    replace (Z.of_nat xhi + 1) with (Z.of_nat (S xhi)) by lia.
    replace (Z.of_nat yhi + 1) with (Z.of_nat (S yhi)) by lia.
    reflexivity. }
  split; [exact Hrect'|]. split; [exact Hy|]. split; [exact Hx|].
  split; [unfold grid_size; rewrite Hh', Hw'; reflexivity|].
  split; [intros i j Hi Hj; apply at2_crop_grid; lia|].
  split.
  { intros r c p Hrc Hp. apply Hin, mask_true. eauto. }
  apply mask_true in H1 as (q1 & G1 & V1), H2 as (q2 & G2 & V2),
    H3 as (q3 & G3 & V3), H4 as (q4 & G4 & V4).
  split; [exists c1, q1; auto|]. split; [exists c2, q2; auto|].
  split; [exists r3, q3; auto | exists r4, q4; auto].
Qed.

End alpha_crop_facts.

(** X8. The alpha crop never cuts a visible pixel: for a rectangular
    RGBA picture with some pixel of positive alpha, the result has the
    size of the box, each of its cells is the cell of the source at the
    box's offset, and every pixel of positive alpha of the source lies in
    the box and appears in the result at its place. *)
Theorem alpha_crop_keeps_visible_pixels (g : list (list (Z * Z * Z * Z))) :
  rectangular g ->
  (exists r c p, at2 g r c = Some p /\ 0 < alpha p) ->
  exists (xlo ylo xhi yhi : nat) g',
    imagedit.crop_box (imagedit.mask g)
      = Ok (Z.of_nat xlo, Z.of_nat ylo, Z.of_nat xhi + 1, Z.of_nat yhi + 1)
    /\ imagedit.cropped (PIL.ImgRGBA g) = Ok (PIL.ImgRGBA g')
    /\ rectangular g'
    /\ (ylo <= yhi < np.height g)%nat /\ (xlo <= xhi < np.width g)%nat
    /\ grid_size g' = (S xhi - xlo, S yhi - ylo)%nat
    /\ (forall i j, (i <= yhi - ylo)%nat -> (j <= xhi - xlo)%nat ->
          at2 g' i j = at2 g (ylo + i) (xlo + j))
    /\ (forall r c p, at2 g r c = Some p -> 0 < alpha p ->
          (ylo <= r <= yhi)%nat /\ (xlo <= c <= xhi)%nat /\
          at2 g' (r - ylo) (c - xlo) = Some p).
Proof.
  intros Hrect Hvis.
  destruct (alpha_crop_spec g Hrect Hvis) as
    (xlo & ylo & xhi & yhi & g' & Hbox & Hcrop & Hrect' & Hy & Hx & Hsize
     & Hcell & Hin & _).
  exists xlo, ylo, xhi, yhi, g'.
  repeat (split; [assumption|]).
  intros r c p Hrc Hp. destruct (Hin r c p Hrc Hp) as [Hr Hc].
  split; [exact Hr|]. split; [exact Hc|].
  rewrite Hcell by lia.
  replace (ylo + (r - ylo))%nat with r by lia.
  replace (xlo + (c - xlo))%nat with c by lia. exact Hrc.
Qed.

(** X9. The alpha crop is tight: for a rectangular RGBA picture with
    some pixel of positive alpha, the first row, the last row, the first
    column and the last column of the result each hold a pixel of
    positive alpha. *)
Theorem alpha_crop_is_tight (g : list (list (Z * Z * Z * Z))) :
  rectangular g ->
  (exists r c p, at2 g r c = Some p /\ 0 < alpha p) ->
  exists g' (wd ht : nat),
    imagedit.cropped (PIL.ImgRGBA g) = Ok (PIL.ImgRGBA g') /\
    grid_size g' = (wd, ht) /\ (0 < wd)%nat /\ (0 < ht)%nat /\
    (exists c p, at2 g' O c = Some p /\ 0 < alpha p) /\
    (exists c p, at2 g' (ht - 1) c = Some p /\ 0 < alpha p) /\
    (exists r p, at2 g' r O = Some p /\ 0 < alpha p) /\
    (exists r p, at2 g' r (wd - 1) = Some p /\ 0 < alpha p).
Proof.
  intros Hrect Hvis.
  destruct (alpha_crop_spec g Hrect Hvis) as
    (xlo & ylo & xhi & yhi & g' & _ & Hcrop & _ & Hy & Hx & Hsize
     & Hcell & Hin & (c1 & p1 & H1 & V1) & (c2 & p2 & H2 & V2)
     & (r3 & p3 & H3 & V3) & (r4 & p4 & H4 & V4)).
  exists g', (S xhi - xlo)%nat, (S yhi - ylo)%nat.
  split; [exact Hcrop|]. split; [exact Hsize|].
  split; [lia|]. split; [lia|].
  destruct (Hin _ _ _ H1 V1) as [_ Hc1], (Hin _ _ _ H2 V2) as [_ Hc2],
    (Hin _ _ _ H3 V3) as [Hr3 _], (Hin _ _ _ H4 V4) as [Hr4 _].
  split; [|split; [|split]].
  - exists (c1 - xlo)%nat, p1. split; [|exact V1]. rewrite Hcell by lia.
    replace (ylo + 0)%nat with ylo by lia.
    replace (xlo + (c1 - xlo))%nat with c1 by lia. exact H1.
  - exists (c2 - xlo)%nat, p2. split; [|exact V2]. rewrite Hcell by lia.
    replace (ylo + (S yhi - ylo - 1))%nat with yhi by lia.
    replace (xlo + (c2 - xlo))%nat with c2 by lia. exact H2.
  - exists (r3 - ylo)%nat, p3. split; [|exact V3]. rewrite Hcell by lia.
    replace (xlo + 0)%nat with xlo by lia.
    replace (ylo + (r3 - ylo))%nat with r3 by lia. exact H3.
  - exists (r4 - ylo)%nat, p4. split; [|exact V4]. rewrite Hcell by lia.
    replace (xlo + (S xhi - xlo - 1))%nat with xhi by lia.
    replace (ylo + (r4 - ylo))%nat with r4 by lia. exact H4.
Qed.

(** X10. A rectangular RGBA picture without a transparent pixel is
    returned as it is. *)
Theorem opaque_picture_not_cropped (g : list (list (Z * Z * Z * Z))) :
  rectangular g ->
  (forall r c p, at2 g r c = Some p -> 0 < alpha p) ->
  imagedit.cropped (PIL.ImgRGBA g) = Ok (PIL.ImgRGBA g).
Proof.
  intros Hrect Hopaque. apply cropped_all_true; [exact Hrect|].
  intros r c b Hb. rewrite at2_mask in Hb.
  destruct (at2 g r c) as [p|] eqn:Hp; [|discriminate].
  simpl in Hb. injection Hb as <-. apply Z.ltb_lt, (Hopaque r c p Hp).
Qed.

(** * Paths *)

Section path_facts.

Import imagedit.

Lemma basename_from_slash (acc s : string) :
  basename_from acc (String "/" s) = basename_from "" s.
Proof. reflexivity. Qed.

Lemma basename_from_other (acc s : string) (c : ascii) :
  c <> "/"%char ->
  basename_from acc (String c s) = basename_from (acc +:+ String c "") s.
Proof.
  intros Hc. destruct c as [b0 b1 b2 b3 b4 b5 b6 b7].
  destruct b0, b1, b2, b3, b4, b5, b6, b7; try reflexivity.
  congruence.
Qed.

Lemma string_app_nil_r (s : string) : s +:+ "" = s.
Proof.
  induction s as [|c s IH]; [reflexivity|].
  change (String c (s +:+ "") = String c s). f_equal. exact IH.
Qed.

Lemma string_app_assoc (s t u : string) :
  (s +:+ t) +:+ u = s +:+ (t +:+ u).
Proof.
  induction s as [|c s IH]; [reflexivity|].
  change (String c ((s +:+ t) +:+ u) = String c (s +:+ (t +:+ u))).
  f_equal. exact IH.
Qed.

Lemma basename_from_app (acc a b : string) :
  basename_from acc (a +:+ b) = basename_from (basename_from acc a) b.
Proof.
  revert acc. induction a as [|c a IH]; intros acc; [reflexivity|].
  destruct (ascii_dec c "/") as [->|Hc].
  - change (String "/" a +:+ b) with (String "/" (a +:+ b)).
    rewrite !basename_from_slash. apply IH.
  - change (String c a +:+ b) with (String c (a +:+ b)).
    rewrite !basename_from_other by exact Hc. apply IH.
Qed.

Lemma basename_from_slash_free (acc b : string) :
  slash_free b -> basename_from acc b = acc +:+ b.
Proof.
  revert acc. induction b as [|c b IH]; intros acc Hb; simpl in Hb.
  - simpl. rewrite string_app_nil_r. reflexivity.
  - destruct Hb as [Hc Hb]. rewrite basename_from_other by exact Hc.
    rewrite IH by exact Hb. rewrite string_app_assoc. reflexivity.
Qed.

(** A path whose last character is a slash has an empty base name. *)
Lemma rev_app_slash (s acc t : string) :
  String.rev_app s acc = String "/" t ->
  (s = "" /\ acc = String "/" t) \/
  (forall acc0, basename_from acc0 s = "").
Proof.
  revert acc. induction s as [|c s IH]; intros acc H; simpl in H.
  - left. auto.
  - right. intros acc0. destruct (IH _ H) as [[-> E]|Hs].
    + injection E as -> _. reflexivity.
    + destruct (ascii_dec c "/") as [->|Hc].
      * rewrite basename_from_slash. apply Hs.
      * rewrite basename_from_other by exact Hc. apply Hs.
Qed.

(** [os.path.join] with a second component that is not absolute. *)
Lemma os_path_join_relative (a b : string) :
  match b with String "/"%char _ => False | _ => True end ->
  os_path_join a b
  = match String.rev a with
    | EmptyString => b
    | String "/"%char _ => a +:+ b
    | _ => a +:+ "/" +:+ b
    end.
Proof.
  destruct b as [|[b0 b1 b2 b3 b4 b5 b6 b7] b']; [reflexivity|].
  destruct b0, b1, b2, b3, b4, b5, b6, b7; try reflexivity.
  intros [].
Qed.

Lemma slash_free_relative (b : string) :
  slash_free b -> match b with String "/"%char _ => False | _ => True end.
Proof.
  destruct b as [|[b0 b1 b2 b3 b4 b5 b6 b7] b']; [exact (fun _ => I)|].
  simpl. intros [Hc _].
  destruct b0, b1, b2, b3, b4, b5, b6, b7; try exact I. congruence.
Qed.

Lemma basename_join (a b : string) :
  slash_free b -> os_path_basename (os_path_join a b) = b.
Proof.
  intros Hb. rewrite os_path_join_relative by (apply slash_free_relative, Hb).
  unfold os_path_basename.
  destruct (String.rev a) as [|c r] eqn:Hrev.
  - apply (basename_from_slash_free "" b Hb).
  - destruct (ascii_dec c "/") as [->|Hc].
    + rewrite basename_from_app.
      destruct (rev_app_slash a "" r Hrev) as [[_ E]|Hs]; [discriminate E|].
      rewrite Hs. apply (basename_from_slash_free "" b Hb).
    + assert (match String c r with
              | EmptyString => b
              | String "/"%char _ => a +:+ b
              | _ => a +:+ "/" +:+ b
              end = a +:+ "/" +:+ b) as ->.
      { destruct c as [b0 b1 b2 b3 b4 b5 b6 b7].
        destruct b0, b1, b2, b3, b4, b5, b6, b7; try reflexivity.
        congruence. }
      rewrite basename_from_app.
      change ("/" +:+ b) with (String "/" b).
      rewrite basename_from_slash.
      apply (basename_from_slash_free "" b Hb).
Qed.

End path_facts.

(** X12. [os.path.basename] undoes [os.path.join] on a file name without
    a slash; so [remove_padding], called on the path [main] builds for
    such a name and without an output name, does exactly what it does
    with the output name [main] passes. *)
Theorem default_output_name_agrees_with_main (base filename : string) (w : world) :
  slash_free filename ->
  imagedit.os_path_basename (imagedit.os_path_join base filename) = filename
  /\ imagedit.remove_padding (input_path filename) None w
     = imagedit.remove_padding (input_path filename)
         (Some ("processed_" +:+ filename)) w.
Proof.
  intros Hf. split; [apply basename_join, Hf|].
  unfold imagedit.remove_padding, input_path.
  rewrite (basename_join imagedit.base_path filename Hf). reflexivity.
Qed.

(** * Further properties of [imagedit.remove_padding] and [main] *)

Section alpha_effects.

Import imagedit.

Lemma cropped_bands (img out : PIL.image) :
  cropped img = Ok out -> PIL.bands out = 4%nat.
Proof.
  rewrite cropped_convert, cropped_RGBA.
  destruct (np.any _); [|intros [= <-]; reflexivity].
  destruct (crop_box _) as [box|e]; simpl; [|discriminate].
  intros [= <-]. reflexivity.
Qed.

(** The path [remove_padding] saves to. *)
Lemma aremove_padding_cases (input_path : string)
    (output_filename : option string) (w : world) :
  let run := remove_padding input_path output_filename w in
  let output_path :=
    os_path_join base_path
      (match output_filename with
       | None => "processed_" +:+ os_path_basename input_path
       | Some n => n
       end) in
  (exists e,
     run = (Raise e,
            World (files w)
                  (log w ++ [ (INFO, "Processing image: " +:+ input_path);
                              (ERROR, "Error processing image: "
                                        +:+ str e) ])) /\
     match files w !! input_path with
     | None => e = FileNotFoundError
                     ("Input file not found: " +:+ input_path)
     | Some Garbage => e = UnidentifiedImageError
                     ("cannot identify image file '" +:+ input_path
                        +:+ "'")
     | Some (Picture img) => cropped img = Raise e
     end) \/
  (exists img out,
     files w !! input_path = Some (Picture img) /\
     cropped img = Ok out /\
     run = (Ok out,
            World (<[output_path := Picture out]> (files w))
                  (log w ++ [ (INFO, "Processing image: " +:+ input_path);
                              (INFO, "Saved processed image to: "
                                       +:+ output_path) ]))).
Proof.
  unfold remove_padding, try_except, Sys.bind, logger, exists_, Image_open,
    lift, save, Sys.ret, Sys.raise.
  cbn -[cropped os_path_join os_path_basename base_path String.append].
  destruct (files w !! input_path) as [[img|]|] eqn:Hfile;
    cbn -[cropped os_path_join os_path_basename base_path String.append].
  - rewrite ?Hfile.
    cbn -[cropped os_path_join os_path_basename base_path String.append].
    destruct (cropped img) as [out|e] eqn:Hout;
      cbn -[cropped os_path_join os_path_basename base_path String.append].
    + right. exists img, out. split; [reflexivity|]. split; [exact Hout|].
      rewrite <- app_assoc. reflexivity.
    + left. exists e. rewrite <- app_assoc. split; reflexivity.
  - rewrite ?Hfile.
    cbn -[cropped os_path_join os_path_basename base_path String.append].
    left. eexists (UnidentifiedImageError _). rewrite <- app_assoc.
    split; reflexivity.
  - left. eexists (FileNotFoundError _). rewrite <- app_assoc.
    split; reflexivity.
Qed.

End alpha_effects.

Section main_frame.

Import imagedit.

(** One turn of the loop of [main]. *)
Lemma process_each_step (f : string) (rest : list string) (w : world) :
  process_each (f :: rest) w
  = match files w !! input_path f with
    | None =>
        process_each rest
          (World (files w)
                 (log w ++ [(WARNING, "File not found: " +:+ f)]))
    | Some _ =>
        match remove_padding (input_path f)
                (Some ("processed_" +:+ f)) w with
        | (Ok _, w1) =>
            process_each rest
              (World (files w1)
                     (log w1 ++ [(INFO, "Successfully processed " +:+ f)]))
        | (Raise e, w1) => (Raise e, w1)
        end
    end.
Proof.
  cbn [process_each]. fold (input_path f). unfold Sys.bind, exists_, logger.
  destruct (files w !! input_path f) as [d|].
  - change (bool_decide (is_Some (Some d))) with true. cbv beta iota.
    destruct (remove_padding _ _ w) as [[out|e] w1]; reflexivity.
  - change (bool_decide (is_Some (@None file))) with false. reflexivity.
Qed.

Lemma process_each_app (l1 l2 : list string) (w w1 : world) :
  process_each l1 w = (Ok tt, w1) ->
  process_each (l1 ++ l2) w = process_each l2 w1.
Proof.
  revert w. induction l1 as [|f l1 IH]; intros w Hrun.
  - simpl in Hrun. injection Hrun as ->. reflexivity.
  - change ((f :: l1) ++ l2) with (f :: (l1 ++ l2)).
    rewrite process_each_step in Hrun |- *.
    destruct (files w !! input_path f) as [d|]; [|apply IH, Hrun].
    destruct (remove_padding _ _ w) as [[out|e] w2]; [|discriminate].
    apply IH, Hrun.
Qed.

(** [process_each] only adds to the log and writes only output paths
    of the names it is given. *)
Lemma process_each_frame (rest : list string) (w : world) :
  (exists records, log (process_each rest w).2 = log w ++ records) /\
  forall q, (forall f, In f rest -> q <> output_path f) ->
            files (process_each rest w).2 !! q = files w !! q.
Proof.
  revert w. induction rest as [|f rest IH]; intros w.
  - split; [exists []; simpl; rewrite app_nil_r; reflexivity|].
    reflexivity.
  - rewrite process_each_step.
    destruct (files w !! input_path f) as [d|] eqn:Hfile.
    + destruct (aremove_padding_cases (input_path f)
                  (Some ("processed_" +:+ f)) w)
        as [(e & Hrun & _)|(img & out & _ & _ & Hrun)];
        cbv zeta in Hrun; rewrite Hrun.
      * split; [eexists; reflexivity | reflexivity].
      * fold (output_path f). cbn [files log].
        set (w1 := World _ _).
        destruct (IH w1) as [[records Hlog] Hframe].
        split.
        { rewrite Hlog. unfold w1. cbn [log]. rewrite <- !app_assoc.
          eexists. reflexivity. }
        intros q Hq.
        rewrite Hframe by (intros g Hg; apply Hq; right; exact Hg).
        unfold w1. cbn [files]. apply lookup_insert_ne.
        intros E. apply (Hq f); [left; reflexivity | congruence].
    + set (w1 := World _ _).
      destruct (IH w1) as [[records Hlog] Hframe].
      split.
      { rewrite Hlog. unfold w1. cbn [log]. rewrite <- !app_assoc.
        eexists. reflexivity. }
      intros q Hq.
      rewrite Hframe by (intros g Hg; apply Hq; right; exact Hg).
      reflexivity.
Qed.

End main_frame.

(** X11. The outcomes of [imagedit.remove_padding]. When it raises, no
    file is written and the log ends with the error record; a missing
    source raises [FileNotFoundError], bytes that are no picture raise
    the error of [Image.open].  When it returns, the picture has four
    bands and is the one that opening the output path under [base_path]
    gives afterwards.  A source that holds a rectangular picture always
    makes it return. *)
Theorem alpha_remove_padding_outcomes
    (source : string) (output_filename : option string) (w : world) :
  let run := imagedit.remove_padding source output_filename w in
  let target :=
    imagedit.os_path_join imagedit.base_path
      (match output_filename with
       | None => "processed_" +:+ imagedit.os_path_basename source
       | Some n => n
       end) in
  (forall e, run.1 = Raise e ->
     files run.2 = files w /\
     log run.2 = log w ++ [ (INFO, "Processing image: " +:+ source);
                            (ERROR, "Error processing image: " +:+ str e) ])
  /\
  (forall out, run.1 = Ok out ->
     PIL.bands out = 4%nat /\
     files run.2 = <[target := Picture out]> (files w) /\
     Image_open target run.2 = (Ok out, run.2)) /\
  (files w !! source = None ->
   run.1 = Raise (FileNotFoundError ("Input file not found: " +:+ source)))
  /\
  (files w !! source = Some Garbage ->
   run.1 = Raise (UnidentifiedImageError
                    ("cannot identify image file '" +:+ source +:+ "'"))) /\
  (forall img, files w !! source = Some (Picture img) ->
     rectangular_image img -> exists out, run.1 = Ok out).
Proof.
  intros run target.
  destruct (aremove_padding_cases source output_filename w)
    as [(e & Hrun & Hwhy)|(img & out & Hfile & Hout & Hrun)];
    cbv zeta in Hrun; fold run in Hrun; fold target in Hrun; rewrite Hrun;
    cbn [fst snd files log].
  - split; [intros e' [= <-]; split; reflexivity|].
    split; [intros out [=]|].
    split; [intros Hnone; rewrite Hnone in Hwhy; congruence|].
    split; [intros Hbad; rewrite Hbad in Hwhy; congruence|].
    intros img Hfile Hrect. rewrite Hfile in Hwhy.
    destruct (cropped_twice img Hrect) as (out & Hout & _). congruence.
  - split; [intros e [=]|].
    split.
    { intros out' [= <-]. split; [exact (cropped_bands img out Hout)|].
      split; [reflexivity|]. unfold Image_open. cbn [files].
      rewrite lookup_insert_eq. reflexivity. }
    split; [intros Hnone; congruence|].
    split; [intros Hbad; congruence|]. eauto.
Qed.

(** X13. [main] never raises, whatever the files hold: a failure is
    logged and ends the run.  It only adds to the log, and it leaves
    every path that is not the output path of one of its names as it
    was; no source is deleted or changed. *)
Theorem main_never_raises_and_writes_only_outputs
    (batch : list string) (w : world) :
  let run := imagedit.main_on batch w in
  run.1 = Ok tt /\
  (exists records, log run.2 = log w ++ records) /\
  (forall q, (forall f, In f batch -> q <> output_path f) ->
             files run.2 !! q = files w !! q).
Proof.
  intros run. subst run. unfold imagedit.main_on, try_except.
  destruct (process_each_frame batch w) as [[records Hlog] Hframe].
  destruct (imagedit.process_each batch w) as [[[]|e] w1]; cbn [fst snd] in *.
  - split; [reflexivity|]. split; [eauto | exact Hframe].
  - unfold logger. cbn [fst snd files log].
    split; [reflexivity|]. split; [|exact Hframe].
    rewrite Hlog, <- app_assoc. eauto.
Qed.

(** X14. [main] stops at the first source that does not decode: if the
    names before it are processed and the next name holds bytes that are
    no picture, the run ends there with the error logged twice (by
    [remove_padding] and by [main]), whatever names follow; nothing
    after it is read or written. *)
Theorem main_stops_at_undecodable_source
    (done_names later_names : list string) (bad : string) (w w1 : world) :
  imagedit.process_each done_names w = (Ok tt, w1) ->
  files w1 !! input_path bad = Some Garbage ->
  imagedit.main_on (done_names ++ bad :: later_names) w
  = (Ok tt,
     World (files w1)
       (log w1 ++
        [ (INFO, "Processing image: " +:+ input_path bad);
          (ERROR, "Error processing image: cannot identify image file '"
                    +:+ input_path bad +:+ "'");
          (ERROR, "Main execution error: cannot identify image file '"
                    +:+ input_path bad +:+ "'") ])).
Proof.
  intros Hdone Hbad. unfold imagedit.main_on, try_except.
  rewrite (process_each_app _ _ _ _ Hdone), process_each_step, Hbad.
  destruct (aremove_padding_cases (input_path bad)
              (Some ("processed_" +:+ bad)) w1)
    as [(e & Hrun & Hwhy)|(img & out & Hfile & _)];
    [|congruence].
  cbv zeta in Hrun. rewrite Hrun. rewrite Hbad in Hwhy. subst e.
  unfold logger. cbn [files log str]. rewrite <- app_assoc. reflexivity.
Qed.

(** X15. The 5% margin is cut down to a whole number of pixels, so it
    is zero for a picture whose smaller side is below 20 pixels:
    validation then leaves every box inside the picture as it is, also
    when the box is too small. *)
Theorem small_picture_has_no_margin
    (self : image_processor.ImagePaddingRemover)
    (height width top bottom lft rgt : Z) :
  0 <= Z.min height width < 20 ->
  0 <= top -> bottom <= height -> 0 <= lft -> rgt <= width ->
  image_processor.margin height width = 0 /\
  image_processor.validate self height width (top, bottom, lft, rgt)
  = (top, bottom, lft, rgt).
Proof.
  intros Hmin Ht Hb Hl Hr.
  assert (image_processor.margin height width = 0) as Hm.
  { unfold image_processor.margin, np.int. simpl.
    apply Z.quot_small. lia. }
  split; [exact Hm|]. unfold image_processor.validate.
  destruct (image_processor.too_aggressive _ _ _ _); [|reflexivity].
  unfold image_processor.preserve. rewrite Hm.
  f_equal; [f_equal; [f_equal|] |]; lia.
Qed.

(** * The further properties at concrete inputs *)

Lemma detected_box_holds_all_content_witness :
  np.shape2 Examples.gradient = (2, 3) /\ 0 < 2 /\ 0 < 3 /\
  exists row_threshold col_threshold top bottom lft rgt,
    image_processor.var_threshold image_processor.with_defaults
      (image_processor.row_vars Examples.gradient) = Ok row_threshold /\
    image_processor.var_threshold image_processor.with_defaults
      (image_processor.col_vars Examples.gradient) = Ok col_threshold /\
    image_processor._compute_edge_boundaries image_processor.with_defaults
      Examples.gradient = Ok (top, bottom, lft, rgt) /\
    let rows :=
      image_processor.content (image_processor.row_vars Examples.gradient)
        row_threshold in
    let cols :=
      image_processor.content (image_processor.col_vars Examples.gradient)
        col_threshold in
    (forall i : nat, rows !! i = Some true ->
       top <= Z.of_nat i < bottom /\
       rows !! Z.to_nat top = Some true /\
       rows !! Z.to_nat (bottom - 1) = Some true) /\
    (forall j : nat, cols !! j = Some true ->
       lft <= Z.of_nat j < rgt /\
       cols !! Z.to_nat lft = Some true /\
       cols !! Z.to_nat (rgt - 1) = Some true).
Proof.
  split; [reflexivity|]. split; [lia|]. split; [lia|].
  apply (detected_box_holds_all_content image_processor.with_defaults
           Examples.gradient 2 3); [reflexivity | lia | lia].
Defined.

Lemma validate_never_shrinks_witness :
  0 <= 40 < 45 /\ 45 <= 100 /\ 0 <= 50 < 55 /\ 55 <= 100 /\
  exists top' bottom' lft' rgt',
    image_processor.validate image_processor.with_defaults 100 100
      (40, 45, 50, 55) = (top', bottom', lft', rgt') /\
    0 <= top' <= 40 /\ 45 <= bottom' <= 100 /\
    0 <= lft' <= 50 /\ 55 <= rgt' <= 100.
Proof.
  split; [lia|]. split; [lia|]. split; [lia|]. split; [lia|].
  apply (validate_never_shrinks image_processor.with_defaults
           100 100 40 45 50 55); lia.
Defined.

Lemma variance_crop_never_empty_witness :
  rectangular_image Examples.framed /\
  PIL.size Examples.framed = (3%nat, 2%nat) /\
  exists top bottom lft rgt out,
    image_processor.crop_boundaries image_processor.with_defaults
      (PIL.np_array Examples.framed) = Ok (top, bottom, lft, rgt) /\
    0 <= top < bottom /\ bottom <= Z.of_nat 2 /\
    0 <= lft < rgt /\ rgt <= Z.of_nat 3 /\
    image_processor.cropped_img image_processor.with_defaults Examples.framed
      = Ok out /\
    rectangular_image out /\
    PIL.size out = (Z.to_nat (rgt - lft), Z.to_nat (bottom - top)).
Proof.
  assert (rectangular_image Examples.framed) as H by (repeat constructor).
  split; [exact H|]. split; [reflexivity|].
  apply (variance_crop_never_empty image_processor.with_defaults
           Examples.framed 3 2 H); [reflexivity | lia | lia].
Defined.



Lemma process_batch_stops_at_missing_source_witness :
  let w1 := (image_processor.process_batch image_processor.with_defaults
               ["in/a.png"] "out" Examples.two_of_three).2 in
  files w1 !! "in/b.png" = None /\
  image_processor.process_batch image_processor.with_defaults
    (["in/a.png"] ++ "in/b.png" :: ["in/c.png"]) "out" Examples.two_of_three
  = (Raise (FileNotFoundError
              ("[Errno 2] No such file or directory: '" +:+ "in/b.png"
                 +:+ "'")),
     World (files w1)
           (log w1 ++ [(INFO, "Processing image: " +:+ "in/b.png")])).
Proof.
  intros w1.
  assert (files w1 !! "in/b.png" = None) as Hmissing
    by (vm_compute; reflexivity).
  assert (image_processor.process_batch image_processor.with_defaults
            ["in/a.png"] "out" Examples.two_of_three = (Ok tt, w1)) as Hdone.
  { subst w1.
    destruct (image_processor.process_batch _ _ _ _) as [r w'] eqn:E.
    assert (r = Ok tt) as ->
      by (apply (f_equal fst) in E; vm_compute in E; congruence).
    reflexivity. }
  split; [exact Hmissing|].
  exact (process_batch_stops_at_missing_source image_processor.with_defaults
           ["in/a.png"] ["in/c.png"] "in/b.png" "out" Examples.two_of_three
           w1 Hdone Hmissing).
Defined.

Lemma process_batch_writes_each_index_witness :
  exists w',
    image_processor.process_batch image_processor.with_defaults
      ["in/a.png"; "in/c.png"] "out" Examples.two_of_three = (Ok tt, w') /\
    (forall i p img, ["in/a.png"; "in/c.png"] !! i = Some p ->
       files Examples.two_of_three !! p = Some (Picture img) ->
       exists out,
         image_processor.cropped_img image_processor.with_defaults img
           = Ok out /\
         files w' !! batch_output "out" i = Some (Picture out)) /\
    (forall q, (forall j, q <> batch_output "out" j) ->
               files w' !! q = files Examples.two_of_three !! q).
Proof.
  apply (process_batch_writes_each_index image_processor.with_defaults
           ["in/a.png"; "in/c.png"] "out" Examples.two_of_three).
  - intros [|[|i]] p H; simpl in H; try discriminate H; injection H as <-;
      exists Examples.chequer, 2%nat, 2%nat;
      (split; [vm_compute; reflexivity|]); (split; [reflexivity|]); lia.
  - intros [|[|i]] p j H; simpl in H; try discriminate H; injection H as <-;
      unfold batch_output; discriminate.
Defined.

Lemma alpha_crop_keeps_visible_pixels_witness :
  rectangular Examples.corner_dot /\
  (exists r c p, at2 Examples.corner_dot r c = Some p /\ 0 < alpha p) /\
  exists (xlo ylo xhi yhi : nat) g',
    imagedit.crop_box (imagedit.mask Examples.corner_dot)
      = Ok (Z.of_nat xlo, Z.of_nat ylo, Z.of_nat xhi + 1, Z.of_nat yhi + 1)
    /\ imagedit.cropped (PIL.ImgRGBA Examples.corner_dot)
       = Ok (PIL.ImgRGBA g')
    /\ rectangular g'
    /\ (ylo <= yhi < np.height Examples.corner_dot)%nat
    /\ (xlo <= xhi < np.width Examples.corner_dot)%nat
    /\ grid_size g' = (S xhi - xlo, S yhi - ylo)%nat
    /\ (forall i j, (i <= yhi - ylo)%nat -> (j <= xhi - xlo)%nat ->
          at2 g' i j = at2 Examples.corner_dot (ylo + i) (xlo + j))
    /\ (forall r c p, at2 Examples.corner_dot r c = Some p -> 0 < alpha p ->
          (ylo <= r <= yhi)%nat /\ (xlo <= c <= xhi)%nat /\
          at2 g' (r - ylo) (c - xlo) = Some p).
Proof.
  assert (rectangular Examples.corner_dot) as Hrect by (repeat constructor).
  assert (exists r c p, at2 Examples.corner_dot r c = Some p /\ 0 < alpha p)
    as Hvis.
  { exists 1%nat, 1%nat, (7, 8, 9, 200). split; [reflexivity|].
    unfold alpha. simpl. lia. }
  split; [exact Hrect|]. split; [exact Hvis|].
  exact (alpha_crop_keeps_visible_pixels Examples.corner_dot Hrect Hvis).
Defined.

Lemma alpha_crop_is_tight_witness :
  rectangular Examples.corner_dot /\
  (exists r c p, at2 Examples.corner_dot r c = Some p /\ 0 < alpha p) /\
  exists g' (wd ht : nat),
    imagedit.cropped (PIL.ImgRGBA Examples.corner_dot) = Ok (PIL.ImgRGBA g')
    /\ grid_size g' = (wd, ht) /\ (0 < wd)%nat /\ (0 < ht)%nat /\
    (exists c p, at2 g' O c = Some p /\ 0 < alpha p) /\
    (exists c p, at2 g' (ht - 1) c = Some p /\ 0 < alpha p) /\
    (exists r p, at2 g' r O = Some p /\ 0 < alpha p) /\
    (exists r p, at2 g' r (wd - 1) = Some p /\ 0 < alpha p).
Proof.
  assert (rectangular Examples.corner_dot) as Hrect by (repeat constructor).
  assert (exists r c p, at2 Examples.corner_dot r c = Some p /\ 0 < alpha p)
    as Hvis.
  { exists 1%nat, 1%nat, (7, 8, 9, 200). split; [reflexivity|].
    unfold alpha. simpl. lia. }
  split; [exact Hrect|]. split; [exact Hvis|].
  exact (alpha_crop_is_tight Examples.corner_dot Hrect Hvis).
Defined.

Lemma opaque_picture_not_cropped_witness :
  rectangular [[(1, 2, 3, 255); (4, 5, 6, 128)]] /\
  imagedit.cropped (PIL.ImgRGBA [[(1, 2, 3, 255); (4, 5, 6, 128)]])
  = Ok (PIL.ImgRGBA [[(1, 2, 3, 255); (4, 5, 6, 128)]]).
Proof.
  assert (rectangular [[(1, 2, 3, 255); (4, 5, 6, 128)]]) as Hrect
    by (repeat constructor).
  split; [exact Hrect|].
  apply (opaque_picture_not_cropped _ Hrect).
  intros [|r] [|[|c]] p H; vm_compute in H; try discriminate H;
    injection H as <-; unfold alpha; simpl; lia.
Defined.

Lemma alpha_remove_padding_outcomes_witness :
  files Examples.rgb_dot_world !! "none.png" = None /\
  (imagedit.remove_padding "none.png" None Examples.rgb_dot_world).1
  = Raise (FileNotFoundError ("Input file not found: " +:+ "none.png")).
Proof.
  assert (files Examples.rgb_dot_world !! "none.png" = None) as H
    by (vm_compute; reflexivity).
  split; [exact H|].
  destruct (alpha_remove_padding_outcomes "none.png" None
              Examples.rgb_dot_world) as (_ & _ & Hmissing & _).
  exact (Hmissing H).
Defined.

Lemma default_output_name_agrees_with_main_witness :
  slash_free "a.png" /\
  imagedit.os_path_basename (imagedit.os_path_join "logos" "a.png") = "a.png"
  /\ imagedit.remove_padding (input_path "a.png") None Examples.logos_a_c
     = imagedit.remove_padding (input_path "a.png")
         (Some ("processed_" +:+ "a.png")) Examples.logos_a_c.
Proof.
  assert (slash_free "a.png") as H by (simpl; repeat split; discriminate).
  split; [exact H|].
  exact (default_output_name_agrees_with_main "logos" "a.png"
           Examples.logos_a_c H).
Defined.

Lemma main_never_raises_and_writes_only_outputs_witness :
  (forall f, In f ["a.png"; "b.png"; "c.png"] ->
             input_path "b.png" <> output_path f) /\
  (imagedit.main_on ["a.png"; "b.png"; "c.png"] Examples.logos_a_bad_c).1
    = Ok tt /\
  files (imagedit.main_on ["a.png"; "b.png"; "c.png"]
           Examples.logos_a_bad_c).2 !! input_path "b.png"
  = files Examples.logos_a_bad_c !! input_path "b.png".
Proof.
  assert (forall f, In f ["a.png"; "b.png"; "c.png"] ->
                    input_path "b.png" <> output_path f) as H.
  { intros f [<-|[<-|[<-|[]]]]; vm_compute; discriminate. }
  split; [exact H|].
  destruct (main_never_raises_and_writes_only_outputs
              ["a.png"; "b.png"; "c.png"] Examples.logos_a_bad_c)
    as (Hok & _ & Hframe).
  split; [exact Hok | exact (Hframe _ H)].
Defined.

Lemma main_stops_at_undecodable_source_witness :
  let w1 := (imagedit.process_each ["a.png"] Examples.logos_a_bad_c).2 in
  files w1 !! input_path "b.png" = Some Garbage /\
  imagedit.main_on (["a.png"] ++ "b.png" :: ["c.png"]) Examples.logos_a_bad_c
  = (Ok tt,
     World (files w1)
       (log w1 ++
        [ (INFO, "Processing image: " +:+ input_path "b.png");
          (ERROR, "Error processing image: cannot identify image file '"
                    +:+ input_path "b.png" +:+ "'");
          (ERROR, "Main execution error: cannot identify image file '"
                    +:+ input_path "b.png" +:+ "'") ])).
Proof.
  intros w1.
  assert (files w1 !! input_path "b.png" = Some Garbage) as Hbad
    by (vm_compute; reflexivity).
  assert (imagedit.process_each ["a.png"] Examples.logos_a_bad_c
          = (Ok tt, w1)) as Hdone.
  { subst w1.
    destruct (imagedit.process_each _ _) as [r w'] eqn:E.
    assert (r = Ok tt) as ->
      by (apply (f_equal fst) in E; vm_compute in E; congruence).
    reflexivity. }
  split; [exact Hbad|].
  exact (main_stops_at_undecodable_source ["a.png"] ["c.png"] "b.png"
           Examples.logos_a_bad_c w1 Hdone Hbad).
Defined.

Lemma small_picture_has_no_margin_witness :
  0 <= Z.min 16 16 < 20 /\
  image_processor.margin 16 16 = 0 /\
  image_processor.validate image_processor.with_defaults 16 16 (7, 8, 7, 8)
  = (7, 8, 7, 8).
Proof.
  split; [lia|].
  apply (small_picture_has_no_margin image_processor.with_defaults
           16 16 7 8 7 8); lia.
Defined.
